(** * Timeline moments of a video's comments: extractor and aggregator

    A shallow embedding of [parse_timestamp] and
    [aggregate_timeline_comments] (src/das.py and src/das-mainpage.py),
    of the ranking used by the timeline view, and the properties the
    specification states about them.

    Conventions.
    - A Python [str] is a list of characters, and a character is a code
      point.  Below 256 the class [\d] of [re] is exactly ['0'..'9']; which
      of the other code points are decimal digits, and with which value,
      is the Unicode database's to say, a parameter of the development.
    - Python integers are unbounded: [Z].  The values of the [timestamp]
      column are whole numbers (pandas stores them as int64 or, next to
      missing values, as float64, where they are exact): [Z] as well.
    - A Python exception is an explicit outcome, [Raise].
    - A [dict] keeps its keys in insertion order, and the timeline view
      iterates over it: an association list in insertion order. *)

From Stdlib Require Import List ZArith Lia Bool Ascii String.
From Stdlib Require Import Permutation Sorted.
Import ListNotations.

#[local] Open Scope Z_scope.

(** ** Outcomes of Python code *)

Inductive exn : Type :=
| ValueError
| TypeError.

Inductive result (A : Type) : Type :=
| Return (a : A)
| Raise (e : exn).

Arguments Return {A} a.
Arguments Raise {A} e.

Definition bind {A B : Type} (m : result A) (k : A -> result B) : result B :=
  match m with
  | Return a => k a
  | Raise e => Raise e
  end.

Notation "x <- m ;; k" := (bind m (fun x => k))
  (at level 61, m at next level, right associativity).

(** [map(f, xs)] consumed from left to right: the first failure escapes. *)
Fixpoint map_result {A B : Type} (f : A -> result B) (xs : list A)
  : result (list B) :=
  match xs with
  | [] => Return []
  | x :: xs' =>
      y <- f x ;;
      ys <- map_result f xs' ;;
      Return (y :: ys)
  end.

(** ** Characters and [int] *)

(** A character is a code point: one of the first 256, or the code point
    [256 + n]. *)
Inductive char : Type :=
| Latin (a : ascii)
| Beyond (n : N).

Coercion Latin : ascii >-> char.
Bind Scope char_scope with char.

Definition char_eqb (a b : char) : bool :=
  match a, b with
  | Latin a', Latin b' => Ascii.eqb a' b'
  | Beyond n, Beyond m => N.eqb n m
  | _, _ => false
  end.

Definition pystr := list char.

(** The decimal digits among the code points from 256 on, with their
    values: the characters [\d] matches and [int] reads there (those of
    category Nd in the Unicode database of the interpreter).  The table
    comes with the interpreter, not with the scripts, and grows with the
    versions of Unicode; all that is used of it is that a digit has a
    value from 0 to 9. *)
Class UnicodeData : Type := {
  decimal : N -> option Z;
  decimal_range : forall n d, decimal n = Some d -> 0 <= d <= 9
}.

Section Unicode.
Context {UD : UnicodeData}.

(** [\d], and what [int] takes for a digit. *)
Definition is_digit (c : char) : bool :=
  match c with
  | Latin a => ((48 <=? nat_of_ascii a) && (nat_of_ascii a <=? 57))%nat
  | Beyond n => match decimal n with Some _ => true | None => false end
  end.

Definition digit_value (c : char) : Z :=
  match c with
  | Latin a => Z.of_nat (nat_of_ascii a) - 48
  | Beyond n => match decimal n with Some d => d | None => 0 end
  end.

Definition colon : char := Latin ":".

(** The number a string of decimal digits denotes, most significant first. *)
Definition digits_value (ds : pystr) : Z :=
  fold_left (fun acc c => 10 * acc + digit_value c) ds 0.

(** [sys.get_int_max_str_digits()], as the interpreter starts with it. *)
Definition max_str_digits : Z := 4300.

(** [int(s)] on the strings the scripts pass to it.  A non-empty string of
    at most [max_str_digits] digits is its value; a longer one, the empty
    string and a string with another character raise [ValueError] (signs,
    blanks and underscores, which [int] also reads, never occur in a part
    of a match). *)
Definition py_int (s : pystr) : result Z :=
  match s with
  | [] => Raise ValueError
  | _ =>
      if forallb is_digit s then
        if max_str_digits <? Z.of_nat (List.length s) then Raise ValueError
        else Return (digits_value s)
      else Raise ValueError
  end.

(** [s.split(sep)] for a one-character separator. *)
Fixpoint py_split (sep : char) (s : pystr) : list pystr :=
  match s with
  | [] => [[]]
  | c :: s' =>
      if char_eqb c sep then [] :: py_split sep s'
      else match py_split sep s' with
           | p :: ps => (c :: p) :: ps
           | [] => [[c]]
           end
  end.

(** ** The fragment of [re] the pattern uses *)

Inductive regex : Type :=
| Digit                      (* \d *)
| Lit (c : char)            (* one literal character *)
| Cat (r1 r2 : regex)        (* r1 r2 *)
| Opt (r : regex).           (* (r)?, greedy *)

(** [\d{1,2}] and [\d{2}]: a bounded greedy repetition tries the longer
    count first, as [\d\d?] does. *)
Definition digit_1_2 : regex := Cat Digit (Opt Digit).
Definition digit_2 : regex := Cat Digit Digit.

(** r'(\d{1,2}:)?\d{1,2}:\d{2}' *)
Definition timestamp_pattern : regex :=
  Cat (Opt (Cat digit_1_2 (Lit colon)))
      (Cat digit_1_2 (Cat (Lit colon) digit_2)).

(** The backtracking matcher.  [bt r s k] matches [r] at the head of [s]
    and hands the rest to the continuation [k]; alternatives are tried in
    the engine's order (a greedy [?] first with its operand, then without).
    The result is the text matched by [r] followed by the text [k]
    returns. *)
Fixpoint bt (r : regex) (s : pystr) (k : pystr -> option pystr) : option pystr :=
  match r with
  | Digit =>
      match s with
      | c :: s' => if is_digit c then option_map (cons c) (k s') else None
      | [] => None
      end
  | Lit a =>
      match s with
      | c :: s' => if char_eqb c a then option_map (cons c) (k s') else None
      | [] => None
      end
  | Cat r1 r2 => bt r1 s (fun s' => bt r2 s' k)
  | Opt r' =>
      match bt r' s k with
      | Some m => Some m
      | None => k s
      end
  end.

(** [re.match]: the text matched at the head of [s], if any. *)
Definition re_match (r : regex) (s : pystr) : option pystr :=
  bt r s (fun _ => Some []).

(** [re.search(r, s).group(0)]: the match at the leftmost position that
    has one; [None] when no position has. *)
Fixpoint re_search (r : regex) (s : pystr) : option pystr :=
  match re_match r s with
  | Some m => Some m
  | None =>
      match s with
      | [] => None
      | _ :: s' => re_search r s'
      end
  end.

(** ** parse_timestamp *)

(** The body of the [try] block. *)
Definition parse_timestamp_try (txt : pystr) : result (option Z) :=
  match re_search timestamp_pattern txt with
  | Some timestamp =>
      let time_parts := py_split colon timestamp in
      if (List.length time_parts =? 2)%nat then
        vals <- map_result py_int time_parts ;;
        match vals with
        | [minutes; seconds] => Return (Some (minutes * 60 + seconds))
        | _ => Raise ValueError
        end
      else
        vals <- map_result py_int time_parts ;;
        match vals with
        | [hours; minutes; seconds] =>
            Return (Some (hours * 3600 + minutes * 60 + seconds))
        | _ => Raise ValueError
        end
  | None => Return None
  end.

(** [try: body except Exception as e: logger.error(...)] followed by
    [return None]: whatever the body raises, the function returns [None]. *)
Definition except_return_none (body : result (option Z)) : result (option Z) :=
  match body with
  | Return v => Return v
  | Raise _ => Return None
  end.

Definition parse_timestamp (txt : pystr) : result (option Z) :=
  except_return_none (parse_timestamp_try txt).

Definition lit (s : string) : pystr := map Latin (list_ascii_of_string s).


(** ** The comment table *)

(** A row of the table [process_video] hands to the aggregator: the four
    fields [get_comments] keeps of a comment, and the [timestamp] column
    that [comments_df['text'].apply(parse_timestamp)] adds, [None] where
    no timestamp was found. *)
Record row : Type := {
  text : pystr;
  authorDisplayName : pystr;
  likeCount : Z;
  publishedAt : pystr;
  timestamp : option Z
}.

(** [df[df['timestamp'].notna()]]: the rows with a timestamp, in the
    table's order, each with the value of its [timestamp] cell. *)
Definition notna (df : list row) : list (Z * row) :=
  flat_map (fun r => match timestamp r with
                     | Some t => [(t, r)]
                     | None => []
                     end) df.

(** [DataFrame.sort_values('timestamp')] with pandas' default algorithm
    ([kind='quicksort']), which is not a stable sort: all that is known of
    its result is that it holds the same rows in ascending order of the
    column. *)
Class SortValues : Type := {
  sort_values : list (Z * row) -> list (Z * row);
  sort_values_perm : forall l, Permutation l (sort_values l);
  sort_values_sorted :
    forall l, StronglySorted (fun a b => fst a <= fst b) (sort_values l)
}.

(** ** Python's stable sorts *)

Section SortedDesc.
Context {A : Type} (key : A -> Z).

(** Puts [x], which came before every element of [l], into [l]: behind
    the elements with a larger key, before those with an equal one. *)
Fixpoint insert_desc (x : A) (l : list A) : list A :=
  match l with
  | [] => [x]
  | y :: l' => if key x <? key y then y :: insert_desc x l' else x :: y :: l'
  end.

(** [sorted(l, key=key, reverse=True)] and [l.sort(key=key, reverse=True)]:
    descending keys, elements with equal keys in their original order. *)
Definition sorted_desc (l : list A) : list A := fold_right insert_desc [] l.
End SortedDesc.

(** ** The timeline *)

(** A value of [timeline_data]. *)
Record moment : Type := {
  comments : list row;
  total_likes : Z;
  representative_time : Z
}.

(** The default factory of [timeline_data]. *)
Definition default_moment : moment :=
  {| comments := []; total_likes := 0; representative_time := 0 |}.

(** [timeline_data]: keys in insertion order. *)
Definition timeline := list (Z * moment).

(** [d[k]] replaced by [f d[k]] in a [defaultdict]: a key that is absent is
    first inserted, behind all others, with the default value. *)
Fixpoint update (k : Z) (f : moment -> moment) (d : timeline) : timeline :=
  match d with
  | [] => [(k, f default_moment)]
  | (k', m) :: d' =>
      if k' =? k then (k', f m) :: d' else (k', m) :: update k f d'
  end.

Section Walk.
Context {SV : SortValues}.

(** What the loop does with the members of the current group once the
    row is appended: src/das.py sorts them by likes, src/das-mainpage.py
    leaves them as they are. *)
Variable arrange : list row -> list row.

(** One iteration of [for _, row in timestamp_comments.iterrows()].  The
    state is [current_group] and [timeline_data]; the statements of the
    body all write to [timeline_data[current_group]]. *)
Definition loop_body (st : option Z * timeline) (tr : Z * row)
  : option Z * timeline :=
  let '(current_group, timeline_data) := st in
  let '(timestamp, row) := tr in
  let current_group :=
    match current_group with
    | None => timestamp
    | Some g => if Z.abs (timestamp - g) >? 5 then timestamp else g
    end in
  (Some current_group,
   update current_group
     (fun m => {| comments := arrange (comments m ++ [row]);
                  total_likes := total_likes m + likeCount row;
                  representative_time := current_group |})
     timeline_data).

Definition walk (rows : list (Z * row)) : option Z * timeline :=
  fold_left loop_body rows (None, []).

Definition aggregate (df : list row) : timeline :=
  let timestamp_comments := notna df in
  if (List.length timestamp_comments =? 0)%nat then []
  else snd (walk (sort_values timestamp_comments)).
End Walk.

(** [aggregate_timeline_comments] of src/das.py. *)
Definition aggregate_timeline_comments {SV : SortValues} (df : list row)
  : timeline :=
  aggregate (sorted_desc likeCount) df.

(** [aggregate_timeline_comments] of src/das-mainpage.py. *)
Definition aggregate_timeline_comments_mainpage {SV : SortValues}
  (df : list row) : timeline :=
  aggregate (fun members => members) df.

(** The two scripts of the repository, and the aggregator of each. *)
Inductive script : Type :=
| das_py
| das_mainpage_py.

Definition arrange_of (s : script) : list row -> list row :=
  match s with
  | das_py => sorted_desc likeCount
  | das_mainpage_py => fun members => members
  end.

Definition aggregate_in {SV : SortValues} (s : script) (df : list row)
  : timeline :=
  match s with
  | das_py => aggregate_timeline_comments df
  | das_mainpage_py => aggregate_timeline_comments_mainpage df
  end.

(** ** The timeline view *)

(** [sorted(timeline_data.items(), key=lambda x: x[1]['total_likes'],
    reverse=True)[:10]] of [display_timeline_moments] (src/das.py) and
    [process_video] (src/das-mainpage.py). *)
Definition top_moments (timeline_data : timeline) : timeline :=
  firstn 10 (sorted_desc (fun x => total_likes (snd x)) timeline_data).

(** ** A sort for [sort_values] *)

(** Insertion into an ascending list, behind the rows with the same
    timestamp. *)
Fixpoint insert_asc (x : Z * row) (l : list (Z * row)) : list (Z * row) :=
  match l with
  | [] => [x]
  | y :: l' => if fst y <=? fst x then y :: insert_asc x l' else x :: y :: l'
  end.

Definition insertion_sort (l : list (Z * row)) : list (Z * row) :=
  fold_left (fun acc x => insert_asc x acc) l [].

(** * Theory *)

(** ** Characters *)

Lemma char_eqb_eq (a b : char) : char_eqb a b = true <-> a = b.
Proof.
  destruct a as [a|n], b as [b|m]; cbn [char_eqb];
    try (split; [discriminate | intros E; inversion E]).
  - rewrite Ascii.eqb_eq. split; [intros ->; reflexivity | intros E; now inversion E].
  - rewrite N.eqb_eq. split; [intros ->; reflexivity | intros E; now inversion E].
Qed.

Lemma char_eqb_refl (a : char) : char_eqb a a = true.
Proof. apply char_eqb_eq. reflexivity. Qed.

(** ** What a pattern denotes, and the matcher against it *)

Inductive lang : regex -> pystr -> Prop :=
| lang_digit c : is_digit c = true -> lang Digit [c]
| lang_lit c : lang (Lit c) [c]
| lang_cat r1 r2 m1 m2 : lang r1 m1 -> lang r2 m2 -> lang (Cat r1 r2) (m1 ++ m2)
| lang_opt_some r m : lang r m -> lang (Opt r) m
| lang_opt_none r : lang (Opt r) [].

#[local] Hint Constructors lang : core.

Lemma option_map_cons_some (c : char) (o : option pystr) (m : pystr) :
  option_map (cons c) o = Some m -> exists m', o = Some m' /\ m = c :: m'.
Proof.
  destruct o as [m'|]; simpl; intros E; inversion E; eauto.
Qed.

(** A result of the matcher splits the text into a word of the pattern and
    a rest the continuation accepts. *)
Lemma bt_sound (r : regex) :
  forall s k m, bt r s k = Some m ->
  exists m1 m2 rest,
    s = m1 ++ rest /\ lang r m1 /\ k rest = Some m2 /\ m = m1 ++ m2.
Proof.
  induction r as [|a|r1 IH1 r2 IH2|r IH]; intros s k m E; simpl in E.
  - destruct s as [|c s']; [discriminate|].
    destruct (is_digit c) eqn:D; [|discriminate].
    apply option_map_cons_some in E as (m' & K & ->).
    exists [c], m', s'. auto.
  - destruct s as [|c s']; [discriminate|].
    destruct (char_eqb c a) eqn:D; [|discriminate].
    apply char_eqb_eq in D; subst c.
    apply option_map_cons_some in E as (m' & K & ->).
    exists [a], m', s'. auto.
  - apply IH1 in E as (m1 & m2 & rest & -> & L1 & K & ->).
    apply IH2 in K as (m1' & m2' & rest' & -> & L2 & K & ->).
    exists (m1 ++ m1'), m2', rest'.
    rewrite <- !app_assoc. auto.
  - destruct (bt r s k) as [m'|] eqn:B.
    + inversion E; subst m'.
      apply IH in B as (m1 & m2 & rest & -> & L & K & ->).
      exists m1, m2, rest. auto.
    + exists [], m, s. auto.
Qed.

(** When the matcher fails, the continuation refuses the rest behind every
    word of the pattern at the head of the text. *)
Lemma bt_complete (r : regex) :
  forall s k, bt r s k = None ->
  forall m1 rest, s = m1 ++ rest -> lang r m1 -> k rest = None.
Proof.
  induction r as [|a|r1 IH1 r2 IH2|r IH]; intros s k E m1 rest -> L;
    inversion L; subst; simpl in E.
  - match goal with H : is_digit _ = true |- _ => rewrite H in E end.
    destruct (k rest); [discriminate|reflexivity].
  - rewrite char_eqb_refl in E.
    destruct (k rest); [discriminate|reflexivity].
  - rewrite <- app_assoc in E.
    eapply IH2; [|reflexivity|eassumption].
    eapply (IH1 _ _ E); [reflexivity|eassumption].
  - destruct (bt r (m1 ++ rest) k) eqn:B; [discriminate|].
    eapply IH; eauto.
  - destruct (bt r rest k); [discriminate|exact E].
Qed.

Lemma re_match_sound (r : regex) (s m : pystr) :
  re_match r s = Some m -> exists rest, s = m ++ rest /\ lang r m.
Proof.
  intros E. apply bt_sound in E as (m1 & m2 & rest & -> & L & K & ->).
  inversion K; subst m2. rewrite app_nil_r. eauto.
Qed.

Lemma re_match_none (r : regex) (s : pystr) :
  re_match r s = None -> forall m rest, s = m ++ rest -> ~ lang r m.
Proof.
  intros E m rest -> L.
  pose proof (bt_complete r _ _ E m rest eq_refl L) as K. discriminate.
Qed.

Lemma re_match_some_of_lang (r : regex) (m rest : pystr) :
  lang r m -> exists m', re_match r (m ++ rest) = Some m'.
Proof.
  intros L. destruct (re_match r (m ++ rest)) as [m'|] eqn:E; eauto.
  exfalso. exact (re_match_none r _ E m rest eq_refl L).
Qed.

(** The search returns the match at the first position where the pattern
    has a word. *)
Lemma re_search_some (r : regex) :
  forall s m, re_search r s = Some m ->
  exists pre post,
    s = pre ++ m ++ post /\ re_match r (m ++ post) = Some m /\
    forall pre' m' post', s = pre' ++ m' ++ post' -> lang r m' ->
                          (List.length pre <= List.length pre')%nat.
Proof.
  induction s as [|c s IH]; intros m E; simpl in E.
  - destruct (re_match r []) as [m0|] eqn:M; [|discriminate].
    inversion E; subst m0.
    destruct (re_match_sound _ _ _ M) as (rest & Hs & _).
    exists [], rest. simpl. rewrite <- Hs. repeat split; auto.
    intros; lia.
  - destruct (re_match r (c :: s)) as [m0|] eqn:M.
    + inversion E; subst m0.
      destruct (re_match_sound _ _ _ M) as (rest & Hs & _).
      exists [], rest. simpl. rewrite <- Hs. repeat split; auto.
      intros; simpl; lia.
    + apply IH in E as (pre & post & -> & M' & Hleft).
      exists (c :: pre), post. repeat split; auto.
      intros pre' m' post' Hs L.
      destruct pre' as [|c' pre'].
      * exfalso. exact (re_match_none r _ M m' post' Hs L).
      * simpl in Hs. inversion Hs; subst c'.
        simpl. apply le_n_S. eapply Hleft; eauto.
Qed.

Lemma re_search_none (r : regex) :
  forall s, re_search r s = None ->
  forall pre m post, s = pre ++ m ++ post -> ~ lang r m.
Proof.
  induction s as [|c s IH]; intros E pre m post Hs L; simpl in E.
  - destruct (re_match r []) eqn:M; [discriminate|].
    destruct pre; [|discriminate].
    exact (re_match_none r _ M m post Hs L).
  - destruct (re_match r (c :: s)) eqn:M; [discriminate|].
    destruct pre as [|c' pre].
    + exact (re_match_none r _ M m post Hs L).
    + simpl in Hs. inversion Hs; subst. eapply IH; eauto.
Qed.

(** Behind a prefix in which no word of the pattern starts, the search
    returns what the matcher returns there. *)
Lemma re_search_at (r : regex) :
  forall pre rest m,
  (forall pre' m' post', pre ++ rest = pre' ++ m' ++ post' -> lang r m' ->
                         (List.length pre <= List.length pre')%nat) ->
  re_match r rest = Some m ->
  re_search r (pre ++ rest) = Some m.
Proof.
  induction pre as [|c pre IH]; intros rest m Hleft M.
  - simpl. destruct rest; simpl; rewrite M; reflexivity.
  - simpl. destruct (re_match r (c :: pre ++ rest)) as [m0|] eqn:M0.
    + exfalso. destruct (re_match_sound _ _ _ M0) as (post & Hs & L).
      specialize (Hleft [] m0 post Hs L). simpl in Hleft. lia.
    + apply IH; auto.
      intros pre' m' post' Hs L.
      specialize (Hleft (c :: pre') m' post'). simpl in Hleft.
      rewrite Hs in Hleft. specialize (Hleft eq_refl L). lia.
Qed.

(** ** The words of the timestamp pattern *)

Definition digits (ds : pystr) : Prop := forallb is_digit ds = true.

(** A field of one or two digits, and one of exactly two. *)
Definition field_1_2 (ds : pystr) : Prop :=
  digits ds /\ (List.length ds = 1 \/ List.length ds = 2)%nat.

Definition field_2 (ds : pystr) : Prop :=
  digits ds /\ List.length ds = 2%nat.

(** The fields of a timestamp: minutes and seconds, or hours, minutes and
    seconds. *)
Inductive timestamp_fields : list pystr -> Prop :=
| fields_ms mm ss :
    field_1_2 mm -> field_2 ss -> timestamp_fields [mm; ss]
| fields_hms hh mm ss :
    field_1_2 hh -> field_1_2 mm -> field_2 ss -> timestamp_fields [hh; mm; ss].

(** [sep.join(parts)] *)
Fixpoint join (sep : char) (parts : list pystr) : pystr :=
  match parts with
  | [] => []
  | [p] => p
  | p :: ps => p ++ sep :: join sep ps
  end.

Lemma is_digit_colon : is_digit colon = false.
Proof. reflexivity. Qed.

Lemma digit_not_colon (c : char) : is_digit c = true -> char_eqb c colon = false.
Proof.
  intros D. destruct (char_eqb c colon) eqn:E; [|reflexivity].
  apply char_eqb_eq in E. subst c. discriminate.
Qed.

Lemma field_1_2_cases (ds : pystr) :
  field_1_2 ds <->
  (exists a, is_digit a = true /\ ds = [a]) \/
  (exists a b, is_digit a = true /\ is_digit b = true /\ ds = [a; b]).
Proof.
  unfold field_1_2, digits. split.
  - intros [D [L|L]].
    + destruct ds as [|a [|]]; try discriminate. simpl in D.
      rewrite andb_true_r in D. eauto.
    + destruct ds as [|a [|b [|]]]; try discriminate. simpl in D.
      rewrite andb_true_r in D. apply andb_prop in D as []. right. eauto.
  - intros [(a & Da & ->)|(a & b & Da & Db & ->)]; simpl;
      rewrite ?Da, ?Db; auto.
Qed.

Lemma field_2_cases (ds : pystr) :
  field_2 ds <->
  exists a b, is_digit a = true /\ is_digit b = true /\ ds = [a; b].
Proof.
  unfold field_2, digits. split.
  - intros [D L].
    destruct ds as [|a [|b [|]]]; try discriminate. simpl in D.
    rewrite andb_true_r in D. apply andb_prop in D as []. eauto.
  - intros (a & b & Da & Db & ->); simpl; rewrite ?Da, ?Db; auto.
Qed.

Lemma lang_digit_1_2 (m : pystr) : lang digit_1_2 m <-> field_1_2 m.
Proof.
  rewrite field_1_2_cases. unfold digit_1_2. split.
  - intros L. inversion L as [| |r1 r2 m1 m2 L1 L2| |]; subst.
    inversion L1; subst. inversion L2 as [| | |r m' L3|]; subst.
    + inversion L3; subst. right. eauto.
    + left. eauto.
  - intros [(a & Da & ->)|(a & b & Da & Db & ->)].
    + change [a] with ([a] ++ []). auto.
    + change [a; b] with ([a] ++ [b]). auto.
Qed.

Lemma lang_digit_2 (m : pystr) : lang digit_2 m <-> field_2 m.
Proof.
  rewrite field_2_cases. unfold digit_2. split.
  - intros L. inversion L as [| |r1 r2 m1 m2 L1 L2| |]; subst.
    inversion L1; subst. inversion L2; subst. eauto.
  - intros (a & b & Da & Db & ->).
    change [a; b] with ([a] ++ [b]). auto.
Qed.

(** The pattern denotes the timestamps, written with colons. *)
Lemma lang_timestamp_pattern (m : pystr) :
  lang timestamp_pattern m <->
  exists fields, timestamp_fields fields /\ m = join colon fields.
Proof.
  unfold timestamp_pattern. split.
  - intros L. inversion L as [| |r1 r2 g m0 Lg L0| |]; subst.
    inversion L0 as [| |r1 r2 mm m1 Lmm L1| |]; subst.
    inversion L1 as [| |r1 r2 c ss Lc Lss| |]; subst.
    inversion Lc; subst.
    apply lang_digit_1_2 in Lmm. apply lang_digit_2 in Lss.
    inversion Lg as [| | |r g' Lg'|]; subst.
    + inversion Lg' as [| |r1 r2 hh c' Lhh Lc'| |]; subst.
      inversion Lc'; subst. apply lang_digit_1_2 in Lhh.
      exists [hh; mm; ss]. split; [constructor; auto|].
      simpl. rewrite <- app_assoc. reflexivity.
    + exists [mm; ss]. split; [constructor; auto|reflexivity].
  - intros (fields & F & ->). destruct F as [mm ss Hm Hs|hh mm ss Hh Hm Hs].
    + simpl. change (mm ++ colon :: ss) with ([] ++ mm ++ [colon] ++ ss).
      apply lang_cat; [auto|].
      apply lang_cat; [apply lang_digit_1_2; auto|].
      apply lang_cat; [auto|apply lang_digit_2; auto].
    + simpl.
      replace (hh ++ colon :: mm ++ colon :: ss)
        with ((hh ++ [colon]) ++ mm ++ [colon] ++ ss)
        by (rewrite <- app_assoc; reflexivity).
      apply lang_cat.
      * apply lang_opt_some, lang_cat; [apply lang_digit_1_2; auto|auto].
      * apply lang_cat; [apply lang_digit_1_2; auto|].
        apply lang_cat; [auto|apply lang_digit_2; auto].
Qed.

(** ** The matcher on the timestamp pattern *)

Ltac field_cases :=
  repeat match goal with
  | H : field_1_2 _ |- _ =>
      apply field_1_2_cases in H;
      destruct H as [(? & ? & ->)|(? & ? & ? & ? & ->)]
  | H : field_2 _ |- _ =>
      apply field_2_cases in H; destruct H as (? & ? & ? & ? & ->)
  end.

Ltac run_matcher :=
  repeat (cbn [bt option_map app];
          repeat match goal with
          | H : is_digit ?c = true |- context [is_digit ?c] => rewrite H
          | H : is_digit ?c = true |- context [char_eqb ?c colon] =>
              rewrite (digit_not_colon c H)
          | |- context [is_digit colon] => rewrite is_digit_colon
          | |- context [char_eqb colon colon] => rewrite char_eqb_refl
          end).

(** With hours, minutes and seconds at the head of the text, the matcher
    takes all three: the hours group is tried first. *)
Lemma re_match_hms (hh mm ss post : pystr) :
  field_1_2 hh -> field_1_2 mm -> field_2 ss ->
  re_match timestamp_pattern (join colon [hh; mm; ss] ++ post)
  = Some (join colon [hh; mm; ss]).
Proof.
  intros Hh Hm Hs. field_cases;
    unfold re_match, timestamp_pattern, digit_1_2, digit_2, join;
    run_matcher; reflexivity.
Qed.

(** A digit is no colon: two timestamps with as many fields at the head of
    one text are the same. *)
Lemma fields_ms_unique (mm ss post mm' ss' post' : pystr) :
  field_1_2 mm -> field_2 ss -> field_1_2 mm' -> field_2 ss' ->
  join colon [mm; ss] ++ post = join colon [mm'; ss'] ++ post' ->
  mm = mm' /\ ss = ss'.
Proof.
  intros Hm Hs Hm' Hs' E. field_cases; simpl in E; inversion E; subst;
    try (split; reflexivity);
    match goal with H : is_digit colon = true |- _ => discriminate H end.
Qed.

(** With minutes and seconds at the head of the text, and no timestamp of
    three fields there, the matcher takes the two. *)
Lemma re_match_ms (mm ss post : pystr) :
  field_1_2 mm -> field_2 ss ->
  (forall hh' mm' ss' post',
      timestamp_fields [hh'; mm'; ss'] ->
      join colon [mm; ss] ++ post <> join colon [hh'; mm'; ss'] ++ post') ->
  re_match timestamp_pattern (join colon [mm; ss] ++ post)
  = Some (join colon [mm; ss]).
Proof.
  intros Hm Hs No3.
  assert (L : lang timestamp_pattern (join colon [mm; ss])).
  { apply lang_timestamp_pattern. exists [mm; ss]. split; [constructor|]; auto. }
  destruct (re_match_some_of_lang _ _ post L) as (m' & E). rewrite E.
  destruct (re_match_sound _ _ _ E) as (post' & Hs' & L').
  apply lang_timestamp_pattern in L' as (fields & F & ->).
  destruct F as [mm' ss' Hm' Hss'|hh' mm' ss' Hh' Hm' Hss'].
  - destruct (fields_ms_unique _ _ _ _ _ _ Hm Hs Hm' Hss' Hs') as [-> ->].
    reflexivity.
  - exfalso. eapply No3; [|exact Hs']. constructor; auto.
Qed.

(** ** [split] and [int] on the fields of a match *)

Lemma py_split_digits (ds : pystr) :
  digits ds -> py_split colon ds = [ds].
Proof.
  unfold digits. induction ds as [|c ds IH]; simpl; [reflexivity|].
  intros D. apply andb_prop in D as [Dc D].
  rewrite (digit_not_colon c Dc), (IH D). reflexivity.
Qed.

Lemma py_split_digits_colon (ds rest : pystr) :
  digits ds -> py_split colon (ds ++ colon :: rest) = ds :: py_split colon rest.
Proof.
  unfold digits. induction ds as [|c ds IH]; simpl; [reflexivity|].
  intros D. apply andb_prop in D as [Dc D].
  rewrite (digit_not_colon c Dc), (IH D). reflexivity.
Qed.

Lemma py_split_join (fields : list pystr) :
  timestamp_fields fields -> py_split colon (join colon fields) = fields.
Proof.
  intros [mm ss [Dm _] [Ds _]|hh mm ss [Dh _] [Dm _] [Ds _]]; simpl;
    rewrite !py_split_digits_colon, py_split_digits by assumption;
    reflexivity.
Qed.

(** [int] reads a string of digits that is not empty and not too long. *)
Lemma py_int_digits (ds : pystr) :
  ds <> [] -> digits ds ->
  Z.of_nat (List.length ds) <= max_str_digits ->
  py_int ds = Return (digits_value ds).
Proof.
  intros N D L. unfold py_int. destruct ds as [|c ds]; [congruence|].
  unfold digits in D. rewrite D.
  destruct (Z.ltb_spec max_str_digits (Z.of_nat (List.length (c :: ds))));
    [lia | reflexivity].
Qed.

Lemma py_int_field_1_2 (ds : pystr) :
  field_1_2 ds -> py_int ds = Return (digits_value ds).
Proof.
  intros [D L]. apply py_int_digits; auto.
  - intros ->. simpl in L. lia.
  - unfold max_str_digits. lia.
Qed.

Lemma py_int_field_2 (ds : pystr) :
  field_2 ds -> py_int ds = Return (digits_value ds).
Proof.
  intros [D L]. apply py_int_field_1_2. split; auto.
Qed.

(** A field of one or two digits is a number below 100. *)
Lemma digit_value_range (c : char) :
  is_digit c = true -> 0 <= digit_value c <= 9.
Proof.
  destruct c as [a|n]; unfold is_digit, digit_value; intros D.
  - apply andb_prop in D as [D1 D2].
    apply Nat.leb_le in D1, D2. lia.
  - destruct (decimal n) as [d|] eqn:E; [|discriminate].
    exact (decimal_range n d E).
Qed.

Lemma digits_value_field_range (ds : pystr) :
  field_1_2 ds -> 0 <= digits_value ds <= 99.
Proof.
  intros F. field_cases; unfold digits_value; cbn [fold_left];
    repeat match goal with
    | H : is_digit _ = true |- _ => apply digit_value_range in H
    end; lia.
Qed.

(** ** What [parse_timestamp] returns *)

(** The search found [fields]: they are a timestamp in [txt], no timestamp
    starts further left, and none with more fields starts at the same
    place (the engine tries the hours group first). *)
Definition leftmost_timestamp (txt : pystr) (fields : list pystr) : Prop :=
  timestamp_fields fields /\
  exists pre post,
    txt = pre ++ join colon fields ++ post /\
    (forall pre' fields' post',
        timestamp_fields fields' ->
        txt = pre' ++ join colon fields' ++ post' ->
        (List.length pre <= List.length pre')%nat) /\
    (forall fields' post',
        timestamp_fields fields' ->
        join colon fields ++ post = join colon fields' ++ post' ->
        (List.length fields' <= List.length fields)%nat).

Lemma re_search_leftmost_timestamp (txt : pystr) (fields : list pystr) :
  leftmost_timestamp txt fields ->
  re_search timestamp_pattern txt = Some (join colon fields).
Proof.
  intros (F & pre & post & -> & Hleft & Hpref).
  apply re_search_at.
  - intros pre' m' post' E L.
    apply lang_timestamp_pattern in L as (fields' & F' & ->).
    eapply Hleft; eauto.
  - destruct F as [mm ss Hm Hs|hh mm ss Hh Hm Hs].
    + apply re_match_ms; auto.
      intros hh' mm' ss' post' F' E.
      specialize (Hpref _ _ F' E). simpl in Hpref. lia.
    + apply re_match_hms; auto.
Qed.

(** Conversely, what the search returns is the leftmost timestamp. *)
Lemma re_search_timestamp_inv (txt m : pystr) :
  re_search timestamp_pattern txt = Some m ->
  exists fields, leftmost_timestamp txt fields /\ m = join colon fields.
Proof.
  intros E. destruct (re_search_some _ _ _ E) as (pre & post & -> & M & Hleft).
  destruct (re_match_sound _ _ _ M) as (post0 & E0 & L).
  apply app_inv_head in E0. subst post0.
  apply lang_timestamp_pattern in L as (fields & F & ->).
  exists fields. split; [|reflexivity].
  split; [assumption|]. exists pre, post. split; [reflexivity|]. split.
  - intros pre' fields' post' F' E'. eapply Hleft; [exact E'|].
    apply lang_timestamp_pattern. eauto.
  - intros fields' post' F' E'.
    destruct F' as [mm' ss' Hm' Hs'|hh' mm' ss' Hh' Hm' Hs'].
    + destruct F; simpl; lia.
    + destruct F as [mm ss Hm Hs|hh mm ss Hh Hm Hs]; [|simpl; lia].
      exfalso. rewrite E' in M.
      rewrite re_match_hms in M by assumption.
      inversion M as [M'].
      apply (f_equal (@List.length char)) in M'.
      clear - M' Hm Hs Hh' Hm' Hs'.
      field_cases; simpl in M'; lia.
Qed.

Lemma leftmost_timestamp_of_search (txt m : pystr) :
  re_search timestamp_pattern txt = Some m ->
  leftmost_timestamp txt (py_split colon m).
Proof.
  intros E. apply re_search_timestamp_inv in E as (fields & Hl & ->).
  rewrite py_split_join; [assumption|apply Hl].
Qed.

(** No timestamp occurs in [txt]. *)
Definition no_timestamp (txt : pystr) : Prop :=
  forall pre fields post,
    timestamp_fields fields -> txt <> pre ++ join colon fields ++ post.

Lemma re_search_no_timestamp (txt : pystr) :
  re_search timestamp_pattern txt = None <-> no_timestamp txt.
Proof.
  split.
  - intros E pre fields post F Hs.
    apply (re_search_none _ _ E pre (join colon fields) post Hs).
    apply lang_timestamp_pattern. eauto.
  - intros No. destruct (re_search timestamp_pattern txt) as [m|] eqn:E; auto.
    exfalso. apply re_search_timestamp_inv in E
      as (fields & (F & pre & post & Hs & _) & _).
    exact (No pre fields post F Hs).
Qed.

Lemma parse_timestamp_try_ms (txt mm ss : pystr) :
  leftmost_timestamp txt [mm; ss] ->
  parse_timestamp_try txt
  = Return (Some (digits_value mm * 60 + digits_value ss)).
Proof.
  intros Hl. unfold parse_timestamp_try.
  rewrite (re_search_leftmost_timestamp _ _ Hl).
  destruct Hl as (F & _). rewrite (py_split_join _ F).
  inversion F as [mm0 ss0 Hm Hs|]; subst. cbn [List.length Nat.eqb map_result].
  rewrite (py_int_field_1_2 _ Hm), (py_int_field_2 _ Hs). reflexivity.
Qed.

Lemma parse_timestamp_try_hms (txt hh mm ss : pystr) :
  leftmost_timestamp txt [hh; mm; ss] ->
  parse_timestamp_try txt
  = Return (Some (digits_value hh * 3600 + digits_value mm * 60
                  + digits_value ss)).
Proof.
  intros Hl. unfold parse_timestamp_try.
  rewrite (re_search_leftmost_timestamp _ _ Hl).
  destruct Hl as (F & _). rewrite (py_split_join _ F).
  inversion F as [|hh0 mm0 ss0 Hh Hm Hs]; subst.
  cbn [List.length Nat.eqb map_result].
  rewrite (py_int_field_1_2 _ Hh), (py_int_field_1_2 _ Hm),
    (py_int_field_2 _ Hs). reflexivity.
Qed.

(** The body of the [try] block raises on no text: the parts of a match
    are digits, two or three of them. *)
Lemma parse_timestamp_try_returns (txt : pystr) :
  exists v, parse_timestamp_try txt = Return v.
Proof.
  destruct (re_search timestamp_pattern txt) as [m|] eqn:E.
  - apply re_search_timestamp_inv in E as (fields & Hl & _).
    pose proof Hl as (F & _). destruct F as [mm ss _ _|hh mm ss _ _ _].
    + rewrite (parse_timestamp_try_ms _ _ _ Hl). eauto.
    + rewrite (parse_timestamp_try_hms _ _ _ _ Hl). eauto.
  - unfold parse_timestamp_try. rewrite E. eauto.
Qed.

(** The matcher at work: digits before a match are skipped, a seconds
    field of one digit is no field, and the hours group wins over a
    shorter match. *)
Example parse_timestamp_skips_digits :
  parse_timestamp (lit "123:45") = Return (Some 1425).
Proof. reflexivity. Qed.

Example parse_timestamp_short_seconds :
  parse_timestamp (lit "1:05:3") = Return (Some 65).
Proof. reflexivity. Qed.

Example parse_timestamp_first_match_only :
  parse_timestamp (lit "from 0:45 to 1:02:03") = Return (Some 45).
Proof. reflexivity. Qed.

Example parse_timestamp_four_fields :
  parse_timestamp (lit "12:34:56:78") = Return (Some 45296).
Proof. reflexivity. Qed.

(** ** The claims on the extractor *)

(** C4.  When the leftmost timestamp of a text has two fields,
    [parse_timestamp] returns minutes * 60 + seconds; when it has three,
    hours * 3600 + minutes * 60 + seconds.  In particular "great scene at
    1:05:30" gives 3930 and "lol at 2:15" gives 135. *)
Theorem parse_timestamp_converts_fields :
  (forall txt mm ss,
      leftmost_timestamp txt [mm; ss] ->
      parse_timestamp txt
      = Return (Some (digits_value mm * 60 + digits_value ss))) /\
  (forall txt hh mm ss,
      leftmost_timestamp txt [hh; mm; ss] ->
      parse_timestamp txt
      = Return (Some (digits_value hh * 3600 + digits_value mm * 60
                      + digits_value ss))) /\
  parse_timestamp (lit "great scene at 1:05:30") = Return (Some 3930) /\
  parse_timestamp (lit "lol at 2:15") = Return (Some 135).
Proof.
  repeat split.
  - intros txt mm ss Hl. unfold parse_timestamp.
    rewrite (parse_timestamp_try_ms _ _ _ Hl). reflexivity.
  - intros txt hh mm ss Hl. unfold parse_timestamp.
    rewrite (parse_timestamp_try_hms _ _ _ _ Hl). reflexivity.
Qed.

(** C8.  [parse_timestamp] raises on no text; it returns [None] when no
    timestamp occurs in the text, and whenever the body of its [try]
    block raises. *)
Theorem parse_timestamp_never_raises (txt : pystr) :
  (exists v, parse_timestamp txt = Return v) /\
  (no_timestamp txt -> parse_timestamp txt = Return None) /\
  parse_timestamp txt = except_return_none (parse_timestamp_try txt) /\
  (forall e, except_return_none (Raise e) = Return None).
Proof.
  repeat split.
  - unfold parse_timestamp.
    destruct (parse_timestamp_try txt) as [v|e]; simpl; eauto.
  - intros No. apply re_search_no_timestamp in No.
    unfold parse_timestamp, parse_timestamp_try. rewrite No. reflexivity.
Qed.

(** C10.  [parse_timestamp] checks no range: a leftmost timestamp whose
    minutes or seconds are 60 or more still gives minutes * 60 + seconds
    (and hours * 3600 with three fields), never [None]; "90:99" gives
    5499. *)
Theorem parse_timestamp_no_range_validation :
  (forall txt mm ss,
      leftmost_timestamp txt [mm; ss] ->
      60 <= digits_value mm \/ 60 <= digits_value ss ->
      parse_timestamp txt
      = Return (Some (digits_value mm * 60 + digits_value ss))) /\
  (forall txt hh mm ss,
      leftmost_timestamp txt [hh; mm; ss] ->
      60 <= digits_value mm \/ 60 <= digits_value ss ->
      parse_timestamp txt
      = Return (Some (digits_value hh * 3600 + digits_value mm * 60
                      + digits_value ss))) /\
  parse_timestamp (lit "90:99") = Return (Some 5499) /\
  parse_timestamp (lit "see 90:99 again") = Return (Some 5499) /\
  parse_timestamp (lit "1:75:80") = Return (Some 8180).
Proof.
  repeat split.
  - intros txt mm ss Hl _. unfold parse_timestamp.
    rewrite (parse_timestamp_try_ms _ _ _ Hl). reflexivity.
  - intros txt hh mm ss Hl _. unfold parse_timestamp.
    rewrite (parse_timestamp_try_hms _ _ _ _ Hl). reflexivity.
Qed.

(** ** Python's stable descending sort *)

Section SortedDescFacts.
Context {A : Type} (key : A -> Z).

Lemma insert_desc_perm (x : A) (l : list A) :
  Permutation (insert_desc key x l) (x :: l).
Proof.
  induction l as [|y l IH]; simpl; [reflexivity|].
  destruct (key x <? key y); [|reflexivity].
  rewrite IH. apply perm_swap.
Qed.

Lemma sorted_desc_perm (l : list A) : Permutation (sorted_desc key l) l.
Proof.
  induction l as [|x l IH]; simpl; [reflexivity|].
  rewrite insert_desc_perm. auto.
Qed.

Lemma sorted_desc_length (l : list A) :
  List.length (sorted_desc key l) = List.length l.
Proof. apply Permutation_length, sorted_desc_perm. Qed.

Definition desc (a b : A) : Prop := key b <= key a.

Lemma insert_desc_sorted (x : A) (l : list A) :
  StronglySorted desc l -> StronglySorted desc (insert_desc key x l).
Proof.
  induction l as [|y l IH]; intros S; simpl.
  - constructor; [constructor|constructor].
  - inversion S as [|y' l' Sl Fy]; subst.
    destruct (key x <? key y) eqn:C.
    + apply Z.ltb_lt in C. constructor; [auto|].
      eapply Permutation_Forall; [symmetry; apply insert_desc_perm|].
      constructor; [unfold desc; lia|assumption].
    + apply Z.ltb_ge in C. constructor; [assumption|].
      constructor; [exact C|].
      eapply Forall_impl; [|exact Fy]. unfold desc. intros; lia.
Qed.

(** The result is in descending order of the key. *)
Lemma sorted_desc_sorted (l : list A) : StronglySorted desc (sorted_desc key l).
Proof.
  induction l as [|x l IH]; simpl; [constructor|].
  apply insert_desc_sorted, IH.
Qed.

Definition with_key (v : Z) (a : A) : bool := key a =? v.

Lemma insert_desc_filter (v : Z) (x : A) (l : list A) :
  filter (with_key v) (insert_desc key x l) = filter (with_key v) (x :: l).
Proof.
  induction l as [|y l IH]; [reflexivity|].
  cbn [insert_desc]. destruct (key x <? key y) eqn:C; [|reflexivity].
  apply Z.ltb_lt in C. cbn [filter] in *. rewrite IH.
  unfold with_key.
  destruct (key x =? v) eqn:Ex, (key y =? v) eqn:Ey; try reflexivity.
  apply Z.eqb_eq in Ex, Ey. lia.
Qed.

(** The sort is stable: elements with one key keep their order. *)
Lemma sorted_desc_stable (v : Z) (l : list A) :
  filter (with_key v) (sorted_desc key l) = filter (with_key v) l.
Proof.
  induction l as [|x l IH]; [reflexivity|].
  cbn [sorted_desc fold_right]. rewrite insert_desc_filter.
  cbn [filter]. fold (sorted_desc key l). rewrite IH. reflexivity.
Qed.

Lemma insert_desc_comm (a b : A) (t : list A) :
  key a < key b ->
  insert_desc key a (insert_desc key b t)
  = insert_desc key b (insert_desc key a t).
Proof.
  intros Hab. induction t as [|c t IH]; cbn [insert_desc].
  - destruct (key a <? key b) eqn:C1; [|apply Z.ltb_ge in C1; lia].
    destruct (key b <? key a) eqn:C2; [apply Z.ltb_lt in C2; lia|].
    reflexivity.
  - destruct (key b <? key c) eqn:Cb, (key a <? key c) eqn:Ca;
      cbn [insert_desc]; rewrite ?Cb, ?Ca;
      try apply Z.ltb_lt in Cb; try apply Z.ltb_ge in Cb;
      try apply Z.ltb_lt in Ca; try apply Z.ltb_ge in Ca; try lia.
    + rewrite IH. reflexivity.
    + destruct (key a <? key b) eqn:C1; [|apply Z.ltb_ge in C1; lia].
      cbn [insert_desc].
      destruct (key a <? key c) eqn:C2; [|apply Z.ltb_ge in C2; lia].
      reflexivity.
    + destruct (key a <? key b) eqn:C1; [|apply Z.ltb_ge in C1; lia].
      destruct (key b <? key a) eqn:C2; [apply Z.ltb_lt in C2; lia|].
      cbn [insert_desc].
      destruct (key a <? key c) eqn:C3; [apply Z.ltb_lt in C3; lia|].
      reflexivity.
Qed.

Lemma fold_insert_desc_insert (a : A) (t s : list A) :
  fold_right (insert_desc key) t (insert_desc key a s)
  = insert_desc key a (fold_right (insert_desc key) t s).
Proof.
  induction s as [|b s IH]; [reflexivity|].
  cbn [insert_desc]. destruct (key a <? key b) eqn:C; [|reflexivity].
  apply Z.ltb_lt in C. cbn [fold_right]. rewrite IH.
  symmetry. apply insert_desc_comm. exact C.
Qed.

(** Sorting again once an element is appended to the sorted list is
    sorting the list with the element appended. *)
Lemma sorted_desc_snoc (l : list A) (x : A) :
  sorted_desc key (sorted_desc key l ++ [x]) = sorted_desc key (l ++ [x]).
Proof.
  unfold sorted_desc. rewrite !fold_right_app.
  generalize (fold_right (insert_desc key) [] [x]). intros t.
  induction l as [|a l IH]; [reflexivity|].
  cbn [fold_right]. rewrite fold_insert_desc_insert, IH. reflexivity.
Qed.

(** Over a list in ascending order of [rank], the stable sort breaks
    ties of the key by ascending [rank]. *)
Variable rank : A -> Z.

Definition ranked_before (a b : A) : Prop :=
  key b < key a \/ (key a = key b /\ rank a < rank b).

Lemma insert_desc_ranked (x : A) (l : list A) :
  Forall (fun y => rank x < rank y) l ->
  StronglySorted ranked_before l ->
  StronglySorted ranked_before (insert_desc key x l).
Proof.
  induction l as [|y l IH]; intros Fx S; simpl.
  - constructor; constructor.
  - inversion S as [|y' l' Sl Fy]; subst.
    inversion Fx as [|y' l' Hxy Fx']; subst.
    destruct (key x <? key y) eqn:C.
    + apply Z.ltb_lt in C. constructor; [auto|].
      eapply Permutation_Forall; [symmetry; apply insert_desc_perm|].
      constructor; [left; exact C|assumption].
    + apply Z.ltb_ge in C. constructor; [assumption|].
      assert (Hx : ranked_before x y).
      { destruct (Z.eq_dec (key x) (key y)); [right; auto|left; lia]. }
      constructor; [exact Hx|].
      rewrite Forall_forall in *. intros z Hz.
      specialize (Fy z Hz). specialize (Fx' z Hz).
      unfold ranked_before in *. lia.
Qed.

Lemma sorted_desc_ranked (l : list A) :
  StronglySorted (fun a b => rank a < rank b) l ->
  StronglySorted ranked_before (sorted_desc key l).
Proof.
  induction l as [|x l IH]; intros S; simpl; [constructor|].
  inversion S as [|x' l' Sl Fx]; subst. apply insert_desc_ranked; auto.
  eapply Permutation_Forall; [symmetry; apply sorted_desc_perm|exact Fx].
Qed.
End SortedDescFacts.

(** ** Insertion sort is a [sort_values] *)

Definition by_timestamp (a b : Z * row) : Prop := fst a <= fst b.

Lemma insert_asc_perm (x : Z * row) (l : list (Z * row)) :
  Permutation (x :: l) (insert_asc x l).
Proof.
  induction l as [|y l IH]; simpl; [reflexivity|].
  destruct (fst y <=? fst x); [|reflexivity].
  rewrite <- IH. apply perm_swap.
Qed.

Lemma insert_asc_sorted (x : Z * row) (l : list (Z * row)) :
  StronglySorted by_timestamp l -> StronglySorted by_timestamp (insert_asc x l).
Proof.
  induction l as [|y l IH]; intros S; simpl.
  - constructor; constructor.
  - inversion S as [|y' l' Sl Fy]; subst.
    destruct (fst y <=? fst x) eqn:C.
    + apply Z.leb_le in C. constructor; [auto|].
      eapply Permutation_Forall; [apply insert_asc_perm|].
      constructor; assumption.
    + apply Z.leb_gt in C. constructor; [assumption|].
      constructor; [unfold by_timestamp; lia|].
      eapply Forall_impl; [|exact Fy]. unfold by_timestamp. intros; lia.
Qed.

Lemma insertion_sort_perm (l : list (Z * row)) :
  Permutation l (insertion_sort l).
Proof.
  unfold insertion_sort.
  enough (G : forall acc,
             Permutation (acc ++ l)
               (fold_left (fun acc x => insert_asc x acc) l acc))
    by exact (G []).
  induction l as [|x l IH]; intros acc; simpl.
  - rewrite app_nil_r. reflexivity.
  - rewrite <- IH, <- insert_asc_perm. symmetry. apply Permutation_middle.
Qed.

Lemma insertion_sort_sorted (l : list (Z * row)) :
  StronglySorted by_timestamp (insertion_sort l).
Proof.
  unfold insertion_sort.
  enough (G : forall acc,
             StronglySorted by_timestamp acc ->
             StronglySorted by_timestamp
               (fold_left (fun acc x => insert_asc x acc) l acc))
    by (apply G; constructor).
  induction l as [|x l IH]; intros acc S; simpl; [assumption|].
  apply IH, insert_asc_sorted, S.
Qed.

Definition insertion_sort_values : SortValues :=
  {| sort_values := insertion_sort;
     sort_values_perm := insertion_sort_perm;
     sort_values_sorted := insertion_sort_sorted |}.

(** A list in strictly ascending order of the timestamps is the only
    ascending arrangement of its rows. *)
Lemma sorted_perm_unique (l s : list (Z * row)) :
  StronglySorted (fun a b => fst a < fst b) l ->
  StronglySorted by_timestamp s ->
  Permutation l s ->
  s = l.
Proof.
  revert s. induction l as [|x l IH]; intros s Sl Ss P.
  - apply Permutation_nil in P. exact P.
  - inversion Sl as [|x' l' Sl' Fx]; subst.
    destruct s as [|y s]; [apply Permutation_sym, Permutation_nil in P; discriminate|].
    inversion Ss as [|y' s' Ss' Fy]; subst.
    assert (Exy : y = x).
    { assert (Hy : In y (x :: l))
        by (eapply Permutation_in; [symmetry; exact P|left; reflexivity]).
      assert (Hx : In x (y :: s))
        by (eapply Permutation_in; [exact P|left; reflexivity]).
      destruct Hy as [Hy|Hy]; [auto|].
      destruct Hx as [Hx|Hx]; [auto|].
      rewrite Forall_forall in Fx, Fy.
      specialize (Fx y Hy). specialize (Fy x Hx).
      unfold by_timestamp in Fy. lia. }
    subst y. f_equal. apply IH; auto.
    eapply Permutation_cons_inv; exact P.
Qed.

Lemma sort_values_of_sorted {SV : SortValues} (l : list (Z * row)) :
  StronglySorted (fun a b => fst a < fst b) l -> sort_values l = l.
Proof.
  intros S. apply sorted_perm_unique; auto.
  - apply sort_values_sorted.
  - apply sort_values_perm.
Qed.

(** However the rows arrive, [sort_values] brings them into the one
    strictly ascending arrangement there is. *)
Lemma sort_values_of_perm {SV : SortValues} (l l' : list (Z * row)) :
  StronglySorted (fun a b => fst a < fst b) l ->
  Permutation l l' ->
  sort_values l' = l.
Proof.
  intros S P. apply sorted_perm_unique; auto.
  - apply sort_values_sorted.
  - rewrite P. apply sort_values_perm.
Qed.

(** ** The [defaultdict] *)

Definition keys (d : timeline) : list Z := map fst d.

(** The members of all moments, moment after moment. *)
Definition members (d : timeline) : list row :=
  flat_map (fun x => comments (snd x)) d.

Lemma update_absent (k : Z) (f : moment -> moment) (d : timeline) :
  ~ In k (keys d) -> update k f d = d ++ [(k, f default_moment)].
Proof.
  induction d as [|[k' m] d IH]; simpl; intros N; [reflexivity|].
  destruct (k' =? k) eqn:E.
  - apply Z.eqb_eq in E. tauto.
  - rewrite IH; tauto.
Qed.

Lemma update_last (k : Z) (f : moment -> moment) (d : timeline) (m : moment) :
  ~ In k (keys d) -> update k f (d ++ [(k, m)]) = d ++ [(k, f m)].
Proof.
  induction d as [|[k' m'] d IH]; simpl; intros N.
  - rewrite Z.eqb_refl. reflexivity.
  - destruct (k' =? k) eqn:E.
    + apply Z.eqb_eq in E. tauto.
    + rewrite IH; tauto.
Qed.

Lemma update_Forall (Q : Z * moment -> Prop) (k : Z) (f : moment -> moment)
  (d : timeline) :
  Forall Q d ->
  (forall m, Q (k, m) -> Q (k, f m)) ->
  Q (k, f default_moment) ->
  Forall Q (update k f d).
Proof.
  intros F Hf Hd. induction F as [|[k' m] d Hx F IH]; simpl.
  - constructor; [exact Hd|constructor].
  - destruct (k' =? k) eqn:E.
    + apply Z.eqb_eq in E. subst k'. constructor; auto.
    + constructor; auto.
Qed.

Lemma update_members (k : Z) (f : moment -> moment) (d : timeline) (r : row) :
  (forall m, Permutation (comments (f m)) (comments m ++ [r])) ->
  Permutation (members (update k f d)) (members d ++ [r]).
Proof.
  intros Hf. induction d as [|[k' m] d IH]; simpl.
  - rewrite app_nil_r. apply Hf.
  - destruct (k' =? k); simpl.
    + rewrite Hf, <- !app_assoc.
      apply Permutation_app_head, Permutation_app_comm.
    + fold (members (update k f d)). rewrite IH, app_assoc. reflexivity.
Qed.

(** ** The walk *)

(** The value of [current_group] once the row with timestamp [t] is
    looked at. *)
Definition next_group (current_group : option Z) (t : Z) : Z :=
  match current_group with
  | None => t
  | Some g => if Z.abs (t - g) >? 5 then t else g
  end.

Lemma next_group_near (current_group : option Z) (t : Z) :
  Z.abs (t - next_group current_group t) <= 5.
Proof.
  unfold next_group. destruct current_group as [g|]; [|lia].
  destruct (Z.abs (t - g) >? 5) eqn:E; [lia|].
  rewrite Z.gtb_ltb in E. apply Z.ltb_ge in E. exact E.
Qed.

Definition sum_likes (rs : list row) : Z :=
  fold_right (fun r acc => likeCount r + acc) 0 rs.

Lemma sum_likes_app (a b : list row) :
  sum_likes (a ++ b) = sum_likes a + sum_likes b.
Proof. induction a as [|r a IH]; simpl; lia. Qed.

Lemma sum_likes_perm (a b : list row) :
  Permutation a b -> sum_likes a = sum_likes b.
Proof. induction 1; simpl; lia. Qed.

Section WalkFacts.
Variable arrange : list row -> list row.
Hypothesis arrange_perm : forall l, Permutation (arrange l) l.

Lemma walk_snoc (rows : list (Z * row)) (tr : Z * row) :
  walk arrange (rows ++ [tr]) = loop_body arrange (walk arrange rows) tr.
Proof. unfold walk. rewrite fold_left_app. reflexivity. Qed.

(** Induction along the walk: [seen] are the rows already looked at. *)
Lemma walk_ind (P : list (Z * row) -> option Z * timeline -> Prop) :
  P [] (None, []) ->
  (forall seen st tr, P seen st -> P (seen ++ [tr]) (loop_body arrange st tr)) ->
  forall rows, P rows (walk arrange rows).
Proof.
  intros H0 Hstep rows. induction rows as [|tr rows IH] using rev_ind.
  - exact H0.
  - rewrite walk_snoc. apply Hstep, IH.
Qed.

Lemma loop_body_eq (cur : option Z) (d : timeline) (t : Z) (r : row) :
  loop_body arrange (cur, d) (t, r)
  = (Some (next_group cur t),
     update (next_group cur t)
       (fun m => {| comments := arrange (comments m ++ [r]);
                    total_likes := total_likes m + likeCount r;
                    representative_time := next_group cur t |}) d).
Proof. reflexivity. Qed.

(** The moments hold the rows looked at, each once. *)
Lemma walk_members (rows : list (Z * row)) :
  Permutation (members (snd (walk arrange rows))) (map snd rows).
Proof.
  apply (walk_ind (fun seen st => Permutation (members (snd st)) (map snd seen))).
  - reflexivity.
  - intros seen [cur d] [t r] IH. rewrite loop_body_eq. cbn [snd] in *.
    rewrite update_members with (r := r).
    + rewrite map_app, IH. reflexivity.
    + intros m. cbn [comments]. apply arrange_perm.
Qed.

(** A moment is well formed when its representative time is its key,
    its total is the sum of its members' likes, and each member was
    looked at with a timestamp at most 5 from the key. *)
Definition well_formed (seen : list (Z * row)) (x : Z * moment) : Prop :=
  representative_time (snd x) = fst x /\
  total_likes (snd x) = sum_likes (comments (snd x)) /\
  Forall (fun r => exists t, In (t, r) seen /\ Z.abs (t - fst x) <= 5)
    (comments (snd x)).

Lemma well_formed_mono (seen seen' : list (Z * row)) (x : Z * moment) :
  incl seen seen' -> well_formed seen x -> well_formed seen' x.
Proof.
  intros I (R & T & F). repeat split; auto.
  eapply Forall_impl; [|exact F].
  intros r (t & Hin & Ht). eauto.
Qed.

Lemma walk_well_formed (rows : list (Z * row)) :
  Forall (well_formed rows) (snd (walk arrange rows)).
Proof.
  apply (walk_ind (fun seen st => Forall (well_formed seen) (snd st))).
  - constructor.
  - intros seen [cur d] [t r] IH. rewrite loop_body_eq. cbn [snd] in *.
    assert (Hr : exists t', In (t', r) (seen ++ [(t, r)]) /\
                            Z.abs (t' - next_group cur t) <= 5).
    { exists t. split; [apply in_or_app; right; left; reflexivity|].
      apply next_group_near. }
    apply update_Forall.
    + eapply Forall_impl; [|exact IH].
      intros x. apply well_formed_mono. apply incl_appl, incl_refl.
    + intros m (R & T & F). unfold well_formed.
      cbn [fst snd comments total_likes representative_time] in *.
      repeat split.
      * rewrite (sum_likes_perm _ _ (arrange_perm _)), sum_likes_app, T.
        simpl. lia.
      * eapply Permutation_Forall; [symmetry; apply arrange_perm|].
        apply Forall_app. split; [exact F|].
        constructor; [exact Hr|constructor].
    + unfold well_formed.
      cbn [fst snd comments total_likes representative_time
             default_moment app].
      repeat split.
      * rewrite (sum_likes_perm _ _ (arrange_perm _)). simpl. lia.
      * eapply Permutation_Forall; [symmetry; apply arrange_perm|].
        constructor; [exact Hr|constructor].
Qed.

(** In a walk over ascending timestamps the keys ascend strictly, and
    the current group is the last key. *)
Definition ascending_state (seen : list (Z * row)) (st : option Z * timeline)
  : Prop :=
  match fst st with
  | None => snd st = [] /\ seen = []
  | Some g =>
      (exists d0 m, snd st = d0 ++ [(g, m)]) /\
      StronglySorted Z.lt (keys (snd st)) /\
      In g (map fst seen)
  end.

Lemma sorted_snoc_le (seen : list (Z * row)) (t g : Z) (r : row) :
  StronglySorted by_timestamp (seen ++ [(t, r)]) ->
  In g (map fst seen) -> g <= t.
Proof.
  induction seen as [|x seen IH]; simpl; intros S Hin; [tauto|].
  inversion S as [|x' l' S' Fx]; subst.
  destruct Hin as [<-|Hin]; [|auto].
  rewrite Forall_forall in Fx. apply (Fx (t, r)).
  apply in_or_app. right. left. reflexivity.
Qed.

Lemma sorted_snoc_inv (seen : list (Z * row)) (tr : Z * row) :
  StronglySorted by_timestamp (seen ++ [tr]) ->
  StronglySorted by_timestamp seen.
Proof.
  induction seen as [|x seen IH]; simpl; intros S; [constructor|].
  inversion S as [|x' l' S' Fx]; subst. constructor; [auto|].
  apply Forall_app in Fx. tauto.
Qed.

Lemma sorted_keys_last (d0 : timeline) (g : Z) (m : moment) :
  StronglySorted Z.lt (keys (d0 ++ [(g, m)])) ->
  Forall (fun k => k < g) (keys d0).
Proof.
  induction d0 as [|[k m'] d0 IH]; simpl; intros S; [constructor|].
  inversion S as [|k' l' S' Fk]; subst. constructor; [|auto].
  rewrite Forall_forall in Fk. apply Fk.
  unfold keys. rewrite map_app. apply in_or_app. right. left. reflexivity.
Qed.

Lemma sorted_keys_snoc (d : timeline) (k : Z) (m : moment) :
  StronglySorted Z.lt (keys d) ->
  Forall (fun k' => k' < k) (keys d) ->
  StronglySorted Z.lt (keys (d ++ [(k, m)])).
Proof.
  induction d as [|[k' m'] d IH]; simpl; intros S F.
  - constructor; constructor.
  - inversion S as [|k0 l0 S' Fk]; subst.
    inversion F as [|k0 l0 Hk F']; subst.
    constructor; [auto|].
    unfold keys. rewrite map_app. apply Forall_app. split; [exact Fk|].
    constructor; [exact Hk|constructor].
Qed.

(** One iteration from an ascending state, on a row that keeps the
    timestamps ascending: the row joins the last moment when its
    timestamp is at most 5 from the current group, and opens a moment
    behind the others when it is more than 5 from it. *)
Lemma loop_body_ascending (seen : list (Z * row)) (g : Z) (d : timeline)
  (t : Z) (r : row) :
  ascending_state seen (Some g, d) ->
  StronglySorted by_timestamp (seen ++ [(t, r)]) ->
  exists d0 m,
    d = d0 ++ [(g, m)] /\
    Forall (fun k => k < g) (keys d0) /\
    g <= t /\
    loop_body arrange (Some g, d) (t, r)
    = if Z.abs (t - g) >? 5
      then (Some t,
            d ++ [(t, {| comments := arrange [r];
                         total_likes := likeCount r;
                         representative_time := t |})])
      else (Some g,
            d0 ++ [(g, {| comments := arrange (comments m ++ [r]);
                          total_likes := total_likes m + likeCount r;
                          representative_time := g |})]).
Proof.
  intros ((d0 & m & Hd) & Sk & Hg) S. cbn [fst snd] in *.
  pose proof (sorted_snoc_le _ _ _ _ S Hg) as Hle.
  subst d. pose proof (sorted_keys_last _ _ _ Sk) as Fk.
  exists d0, m. repeat split; auto.
  rewrite loop_body_eq. unfold next_group.
  destruct (Z.abs (t - g) >? 5) eqn:E.
  - rewrite update_absent; [reflexivity|].
    rewrite Z.gtb_ltb in E. apply Z.ltb_lt in E.
    unfold keys. rewrite map_app, in_app_iff. simpl.
    rewrite Forall_forall in Fk. intros [Hin|[Hin|[]]].
    + specialize (Fk _ Hin). lia.
    + lia.
  - rewrite update_last; [reflexivity|].
    rewrite Forall_forall in Fk. intros Hin. specialize (Fk _ Hin). lia.
Qed.

Lemma walk_ascending (rows : list (Z * row)) :
  StronglySorted by_timestamp rows ->
  ascending_state rows (walk arrange rows).
Proof.
  apply (walk_ind (fun seen st =>
                     StronglySorted by_timestamp seen ->
                     ascending_state seen st)).
  - intros _. split; reflexivity.
  - intros seen [cur d] [t r] IH S.
    specialize (IH (sorted_snoc_inv _ _ S)).
    assert (Hin : forall x, In x (map fst (seen ++ [(t, r)])) <->
                            In x (map fst seen) \/ x = t).
    { intros x. rewrite map_app, in_app_iff. simpl. intuition. }
    destruct cur as [g|].
    + destruct (loop_body_ascending _ _ _ _ _ IH S)
        as (d0 & m & Hd & Fk & Hle & ->).
      destruct IH as (_ & Sk & Hg). cbn [fst snd] in *.
      destruct (Z.abs (t - g) >? 5) eqn:E; unfold ascending_state;
        cbn [fst snd].
      * split; [eauto|]. split; [|apply Hin; auto].
        apply sorted_keys_snoc; [exact Sk|].
        rewrite Z.gtb_ltb in E. apply Z.ltb_lt in E.
        subst d. unfold keys. rewrite map_app. apply Forall_app. split.
        -- eapply Forall_impl; [|exact Fk]. simpl. intros; lia.
        -- constructor; [simpl; lia|constructor].
      * split; [eauto|]. split; [|apply Hin; auto].
        subst d. unfold keys in *. rewrite map_app in *. exact Sk.
    + unfold ascending_state in IH. cbn [fst snd] in IH.
      destruct IH as (Hd & Hs). subst d seen.
      rewrite loop_body_eq. unfold ascending_state. cbn.
      split; [exists []; eexists; reflexivity|].
      split; [constructor; constructor|auto].
Qed.

Lemma aggregate_eq {SV : SortValues} (df : list row) :
  aggregate arrange df = snd (walk arrange (sort_values (notna df))).
Proof.
  unfold aggregate. destruct (notna df) as [|x l] eqn:E; [|reflexivity].
  simpl. pose proof (sort_values_perm []) as P.
  apply Permutation_nil in P. rewrite P. reflexivity.
Qed.
End WalkFacts.

(** ** The two aggregators *)

Lemma arrange_of_perm (s : script) (l : list row) :
  Permutation (arrange_of s l) l.
Proof. destruct s; [apply sorted_desc_perm|reflexivity]. Qed.

Lemma arrange_of_snoc (s : script) (l : list row) (x : row) :
  arrange_of s (arrange_of s l ++ [x]) = arrange_of s (l ++ [x]).
Proof. destruct s; [apply sorted_desc_snoc|reflexivity]. Qed.

Lemma arrange_of_one (s : script) (x : row) : arrange_of s [x] = [x].
Proof. destruct s; reflexivity. Qed.

Lemma aggregate_in_eq {SV : SortValues} (s : script) (df : list row) :
  aggregate_in s df = snd (walk (arrange_of s) (sort_values (notna df))).
Proof. destruct s; apply aggregate_eq. Qed.

(** ** The rows with a timestamp *)

Definition has_timestamp (r : row) : bool :=
  match timestamp r with
  | Some _ => true
  | None => false
  end.

Lemma notna_rows (df : list row) : map snd (notna df) = filter has_timestamp df.
Proof.
  unfold notna, has_timestamp. induction df as [|r df IH]; simpl; [reflexivity|].
  destruct (timestamp r); simpl; rewrite IH; reflexivity.
Qed.

Lemma in_notna (df : list row) (t : Z) (r : row) :
  In (t, r) (notna df) <-> In r df /\ timestamp r = Some t.
Proof.
  unfold notna. rewrite in_flat_map. split.
  - intros (r' & Hin & Hr). destruct (timestamp r') as [t'|] eqn:E; [|destruct Hr].
    destruct Hr as [Hr|[]]. inversion Hr; subst. auto.
  - intros (Hin & E). exists r. rewrite E. split; [exact Hin|left; reflexivity].
Qed.

Lemma notna_perm (df df' : list row) :
  Permutation df df' -> Permutation (notna df) (notna df').
Proof. apply Permutation_flat_map. Qed.

Lemma in_sort_values {SV : SortValues} (l : list (Z * row)) (x : Z * row) :
  In x (sort_values l) <-> In x l.
Proof.
  split; apply Permutation_in; [symmetry|]; apply sort_values_perm.
Qed.

Lemma NoDup_flat_map_unique {A B : Type} (f : A -> list B) (l : list A)
  (x y : A) (b : B) :
  NoDup (flat_map f l) ->
  In x l -> In y l -> In b (f x) -> In b (f y) -> x = y.
Proof.
  induction l as [|a l IH]; simpl; intros N Hx Hy Bx By; [destruct Hx|].
  pose proof (NoDup_app_remove_l _ _ N) as Nl.
  assert (D : forall z, In z l -> In b (f a) -> In b (f z) -> False).
  { intros z Hz Ba Bz. clear - N Hz Ba Bz.
    induction (f a) as [|c fa IHf]; [destruct Ba|].
    simpl in N. inversion N as [|c' l' Hc N']; subst.
    destruct Ba as [->|Ba]; [|auto].
    apply Hc. apply in_or_app. right. apply in_flat_map. eauto. }
  destruct Hx as [<-|Hx], Hy as [<-|Hy]; auto.
  - exfalso. eapply D; eauto.
  - exfalso. eapply D; eauto.
Qed.

Lemma StronglySorted_lt_NoDup (l : list Z) : StronglySorted Z.lt l -> NoDup l.
Proof.
  induction 1 as [|x l S IH F]; constructor; auto.
  intros Hin. rewrite Forall_forall in F. specialize (F x Hin). lia.
Qed.

Section Output.
Context {SV : SortValues}.
Variable s : script.
Variable df : list row.

Lemma aggregate_in_members :
  Permutation (members (aggregate_in s df)) (filter has_timestamp df).
Proof.
  rewrite aggregate_in_eq, (walk_members _ (arrange_of_perm s)).
  rewrite <- notna_rows. apply Permutation_map. symmetry.
  apply sort_values_perm.
Qed.

Lemma aggregate_in_well_formed :
  Forall (well_formed (notna df)) (aggregate_in s df).
Proof.
  rewrite aggregate_in_eq.
  eapply Forall_impl; [|apply (walk_well_formed _ (arrange_of_perm s))].
  intros x. apply well_formed_mono.
  intros y. apply in_sort_values.
Qed.

Lemma aggregate_in_keys_ascending :
  StronglySorted Z.lt (keys (aggregate_in s df)).
Proof.
  rewrite aggregate_in_eq.
  pose proof (walk_ascending (arrange_of s) _ (sort_values_sorted (notna df)))
    as A.
  unfold ascending_state in A.
  destruct (walk (arrange_of s) (sort_values (notna df))) as [[g|] d];
    cbn [fst snd] in *.
  - tauto.
  - destruct A as (-> & _). constructor.
Qed.
End Output.

(** ** The claims on the aggregator *)

(** A table for the examples: a comment with its timestamp cell and its
    likes. *)
Definition comment_at (t : option Z) (likes : Z) : row :=
  {| text := []; authorDisplayName := []; likeCount := likes;
     publishedAt := []; timestamp := t |}.

(** C9.  When no comment of the table has a timestamp, and so for the
    empty table, both aggregators return the empty mapping. *)
Theorem aggregate_without_timestamps {SV : SortValues} (s : script)
  (df : list row) :
  (forall r, In r df -> timestamp r = None) ->
  aggregate_in s df = [].
Proof.
  intros Hnone.
  assert (E : notna df = []).
  { unfold notna. induction df as [|r df' IH]; [reflexivity|].
    simpl. rewrite (Hnone r (or_introl eq_refl)). simpl.
    apply IH. intros r' Hr'. apply Hnone. right. exact Hr'. }
  destruct s; unfold aggregate_in, aggregate_timeline_comments,
    aggregate_timeline_comments_mainpage, aggregate; rewrite E; reflexivity.
Qed.

Lemma aggregate_without_timestamps_witness :
  ((forall r, In r [comment_at None 3; comment_at None 0] -> timestamp r = None) /\
   aggregate_in (SV := insertion_sort_values) das_py
     [comment_at None 3; comment_at None 0] = []) /\
  ((forall r : row, In r [] -> timestamp r = None) /\
   aggregate_in (SV := insertion_sort_values) das_mainpage_py [] = []).
Proof.
  assert (H1 : forall r, In r [comment_at None 3; comment_at None 0] ->
                         timestamp r = None)
    by (intros r [<-|[<-|[]]]; reflexivity).
  assert (H2 : forall r : row, In r [] -> timestamp r = None)
    by (intros r []).
  split; split.
  - exact H1.
  - exact (aggregate_without_timestamps (SV := insertion_sort_values) das_py _ H1).
  - exact H2.
  - exact (aggregate_without_timestamps (SV := insertion_sort_values)
             das_mainpage_py _ H2).
Defined.

(** C6.  In the output of both aggregators, every member of every moment
    has a timestamp that differs from the moment's key, which is its
    representative time, by at most 5 seconds. *)
Theorem members_within_tolerance {SV : SortValues} (s : script)
  (df : list row) (k : Z) (m : moment) (r : row) :
  In (k, m) (aggregate_in s df) ->
  In r (comments m) ->
  representative_time m = k /\
  exists t, timestamp r = Some t /\ Z.abs (t - k) <= 5.
Proof.
  intros Hm Hr.
  pose proof (aggregate_in_well_formed s df) as W.
  rewrite Forall_forall in W. destruct (W _ Hm) as (R & _ & F).
  cbn [fst snd] in *. split; [exact R|].
  rewrite Forall_forall in F. destruct (F r Hr) as (t & Hin & Ht).
  apply in_notna in Hin as (_ & E). eauto.
Qed.

Definition sample_table : list row :=
  [comment_at (Some 12) 1; comment_at (Some 0) 2; comment_at None 9;
   comment_at (Some 5) 3; comment_at (Some 4) 7].

Lemma members_within_tolerance_witness :
  In (0, {| comments := [comment_at (Some 4) 7; comment_at (Some 5) 3;
                         comment_at (Some 0) 2];
            total_likes := 12; representative_time := 0 |})
     (aggregate_in (SV := insertion_sort_values) das_py sample_table) /\
  In (comment_at (Some 5) 3)
     [comment_at (Some 4) 7; comment_at (Some 5) 3; comment_at (Some 0) 2] /\
  (0 = 0 /\
   exists t, timestamp (comment_at (Some 5) 3) = Some t /\ Z.abs (t - 0) <= 5).
Proof.
  assert (H1 : In (0, {| comments := [comment_at (Some 4) 7;
                                      comment_at (Some 5) 3;
                                      comment_at (Some 0) 2];
                         total_likes := 12; representative_time := 0 |})
                 (aggregate_in (SV := insertion_sort_values) das_py sample_table))
    by (left; reflexivity).
  assert (H2 : In (comment_at (Some 5) 3)
                 [comment_at (Some 4) 7; comment_at (Some 5) 3;
                  comment_at (Some 0) 2])
    by (right; left; reflexivity).
  split; [exact H1|]. split; [exact H2|].
  exact (members_within_tolerance (SV := insertion_sort_values) das_py
           sample_table 0 _ _ H1 H2).
Defined.

(** C7.  The moments share out the comments that have a timestamp: their
    members, taken together, are those comments, as many as there are;
    a comment without a timestamp is in no moment; every comment with one
    is in a moment; the moments have different keys; and when the
    comments of the table differ from each other, no comment is in two
    moments. *)
Theorem moments_partition_timestamped {SV : SortValues} (s : script)
  (df : list row) :
  Permutation (members (aggregate_in s df)) (filter has_timestamp df) /\
  List.length (members (aggregate_in s df))
  = List.length (filter has_timestamp df) /\
  (forall r, timestamp r = None -> ~ In r (members (aggregate_in s df))) /\
  (forall r, In r df -> timestamp r <> None ->
             exists k m, In (k, m) (aggregate_in s df) /\ In r (comments m)) /\
  NoDup (keys (aggregate_in s df)) /\
  (NoDup df ->
   NoDup (members (aggregate_in s df)) /\
   forall r k m k' m',
     In (k, m) (aggregate_in s df) -> In r (comments m) ->
     In (k', m') (aggregate_in s df) -> In r (comments m') ->
     k = k' /\ m = m').
Proof.
  pose proof (aggregate_in_members s df) as P.
  assert (Hmem : forall r, In r (members (aggregate_in s df)) <->
                           In r df /\ has_timestamp r = true).
  { intros r. rewrite <- filter_In. split; apply Permutation_in; auto.
    symmetry. exact P. }
  split; [exact P|]. split; [apply Permutation_length, P|].
  split; [|split; [|split]].
  - intros r E Hin. apply Hmem in Hin as (_ & H).
    unfold has_timestamp in H. rewrite E in H. discriminate.
  - intros r Hin Hts.
    assert (Hr : In r (members (aggregate_in s df))).
    { apply Hmem. split; [exact Hin|]. unfold has_timestamp.
      destruct (timestamp r); [reflexivity|congruence]. }
    unfold members in Hr. apply in_flat_map in Hr as ([k m] & Hx & Hc).
    eauto.
  - apply StronglySorted_lt_NoDup, aggregate_in_keys_ascending.
  - intros N.
    assert (Nm : NoDup (members (aggregate_in s df))).
    { eapply Permutation_NoDup; [symmetry; exact P|].
      apply NoDup_filter, N. }
    split; [exact Nm|].
    intros r k m k' m' Hm Hr Hm' Hr'.
    assert (E : (k, m) = (k', m')).
    { eapply (NoDup_flat_map_unique (fun x => comments (snd x)));
        [exact Nm|exact Hm|exact Hm'|exact Hr|exact Hr']. }
    inversion E. auto.
Qed.

Lemma moments_partition_timestamped_witness :
  NoDup sample_table /\
  NoDup (members (aggregate_in (SV := insertion_sort_values) das_py sample_table)) /\
  List.length (members (aggregate_in (SV := insertion_sort_values) das_py
                          sample_table)) = 4%nat.
Proof.
  assert (N : NoDup sample_table).
  { unfold sample_table.
    repeat (constructor; [simpl; intuition discriminate|]). constructor. }
  split; [exact N|]. split.
  - exact (proj1
             (proj2 (proj2 (proj2 (proj2 (proj2
                (moments_partition_timestamped (SV := insertion_sort_values)
                   das_py sample_table))))) N)).
  - exact (proj1 (proj2
             (moments_partition_timestamped (SV := insertion_sort_values)
                das_py sample_table))).
Defined.

(** ** The ranking of the timeline view *)

Lemma StronglySorted_app_l {A : Type} (R : A -> A -> Prop) (a b : list A) :
  StronglySorted R (a ++ b) -> StronglySorted R a.
Proof.
  induction a as [|x a IH]; simpl; intros S; [constructor|].
  inversion S as [|x' l' S' F]; subst. constructor; [auto|].
  apply Forall_app in F. tauto.
Qed.

Lemma StronglySorted_firstn {A : Type} (R : A -> A -> Prop) (n : nat)
  (l : list A) :
  StronglySorted R l -> StronglySorted R (firstn n l).
Proof.
  intros S. rewrite <- (firstn_skipn n l) in S.
  exact (StronglySorted_app_l _ _ _ S).
Qed.

Lemma StronglySorted_map_lt {A : Type} (f : A -> Z) (l : list A) :
  StronglySorted Z.lt (map f l) -> StronglySorted (fun a b => f a < f b) l.
Proof.
  induction l as [|x l IH]; simpl; intros S; [constructor|].
  inversion S as [|x' l' S' F]; subst. constructor; [auto|].
  rewrite Forall_forall in *. intros y Hy. apply F, in_map, Hy.
Qed.

Definition likes_of (x : Z * moment) : Z := total_likes (snd x).
Definition time_of (x : Z * moment) : Z := representative_time (snd x).

(** [a] stands before [b] in the view: more likes, or as many and an
    earlier representative time. *)
Definition outranks : Z * moment -> Z * moment -> Prop :=
  ranked_before likes_of time_of.

(** The aggregator hands its moments over in ascending order of their
    representative times. *)
Lemma aggregate_in_times_ascending {SV : SortValues} (s : script)
  (df : list row) :
  StronglySorted (fun a b => time_of a < time_of b) (aggregate_in s df).
Proof.
  pose proof (aggregate_in_keys_ascending s df) as K.
  pose proof (aggregate_in_well_formed s df) as W.
  apply StronglySorted_map_lt in K.
  revert K W. generalize (aggregate_in s df). intros d.
  induction d as [|x d IH]; intros K W; [constructor|].
  inversion K as [|x' d' K' F]; subst.
  inversion W as [|x' d' (Rx & _) W']; subst.
  constructor; [auto|].
  rewrite Forall_forall in *. intros y Hy.
  destruct (W' y Hy) as (Ry & _). unfold time_of. rewrite Rx, Ry.
  apply F, Hy.
Qed.

(** C5.  The timeline view shows the moments in descending order of their
    total likes, moments with equal totals in ascending order of their
    representative times, and at most 10 of them: the first 10 of that
    order. *)
Theorem top_moments_ranked {SV : SortValues} (s : script) (df : list row) :
  let timeline_data := aggregate_in s df in
  let ranking := sorted_desc likes_of timeline_data in
  top_moments timeline_data = firstn 10 ranking /\
  Permutation ranking timeline_data /\
  StronglySorted outranks ranking /\
  StronglySorted outranks (top_moments timeline_data) /\
  (List.length (top_moments timeline_data) <= 10)%nat /\
  List.length (top_moments timeline_data)
  = Nat.min 10 (List.length timeline_data).
Proof.
  intros timeline_data ranking.
  assert (R : StronglySorted outranks ranking).
  { apply sorted_desc_ranked, aggregate_in_times_ascending. }
  split; [reflexivity|]. split; [apply sorted_desc_perm|].
  split; [exact R|]. split; [apply StronglySorted_firstn, R|].
  unfold top_moments. fold likes_of. fold ranking.
  rewrite length_firstn. unfold ranking. rewrite sorted_desc_length.
  split; [apply Nat.le_min_l|reflexivity].
Qed.

Example top_moments_breaks_ties_by_time :
  map fst
    (top_moments
       (aggregate_in (SV := insertion_sort_values) das_py
          [comment_at (Some 40) 5; comment_at (Some 20) 9;
           comment_at (Some 0) 2; comment_at (Some 3) 3]))
  = [20; 0; 40].
Proof. reflexivity. Qed.

(** ** The members of a moment in the two scripts *)

(** A moment with its members sorted by likes. *)
Definition sort_members (x : Z * moment) : Z * moment :=
  (fst x,
   {| comments := sorted_desc likeCount (comments (snd x));
      total_likes := total_likes (snd x);
      representative_time := representative_time (snd x) |}).

Lemma update_sort_members (k : Z) (f f' : moment -> moment) (d : timeline) :
  (forall k' m, snd (sort_members (k', f m)) = f' (snd (sort_members (k', m)))) ->
  update k f' (map sort_members d) = map sort_members (update k f d).
Proof.
  intros Hf. induction d as [|[k' m] d IH]; simpl.
  - pose proof (Hf k default_moment) as E.
    change (snd (sort_members (k, default_moment))) with default_moment in E.
    rewrite <- E. reflexivity.
  - destruct (k' =? k); simpl.
    + pose proof (Hf k' m) as E.
      change (snd (sort_members (k', m)))
        with {| comments := sorted_desc likeCount (comments m);
                total_likes := total_likes m;
                representative_time := representative_time m |} in E.
      rewrite <- E. reflexivity.
    + rewrite IH. reflexivity.
Qed.

(** The walk of src/das.py goes through the states of the walk of
    src/das-mainpage.py, with the members of each moment sorted: both
    append the same rows to the same moments in the same order. *)
Lemma walk_das_mainpage (rows : list (Z * row)) :
  walk (arrange_of das_py) rows
  = (fst (walk (arrange_of das_mainpage_py) rows),
     map sort_members (snd (walk (arrange_of das_mainpage_py) rows))).
Proof.
  induction rows as [|[t r] rows IH] using rev_ind; [reflexivity|].
  rewrite !walk_snoc, IH.
  destruct (walk (arrange_of das_mainpage_py) rows) as [cur d].
  cbn [fst snd]. rewrite !loop_body_eq. cbn [fst snd]. f_equal.
  apply update_sort_members.
  intros k' m. cbn [sort_members fst snd comments total_likes
                      representative_time arrange_of].
  rewrite sorted_desc_snoc. reflexivity.
Qed.

Lemma aggregate_das_mainpage {SV : SortValues} (df : list row) :
  aggregate_timeline_comments df
  = map sort_members (aggregate_timeline_comments_mainpage df).
Proof.
  change (aggregate_in das_py df
          = map sort_members (aggregate_in das_mainpage_py df)).
  rewrite !aggregate_in_eq, walk_das_mainpage. reflexivity.
Qed.

Definition with_likes (v : Z) (r : row) : bool := likeCount r =? v.

Definition chained_rows : list row :=
  [comment_at (Some 0) 2; comment_at (Some 4) 7;
   comment_at (Some 8) 3; comment_at (Some 12) 1].

(** C2.  In the output of [aggregate_timeline_comments] of src/das.py the
    members of every moment are in descending order of their likes, and
    members with equal likes are in the order in which they were appended
    to the moment (the order of its members in src/das-mainpage.py, which
    appends the same rows and never sorts).  The output of src/das-mainpage.py
    is not ordered by likes: on the comments at 0 and at 4 seconds with 2
    and 7 likes its one moment lists the comment with 2 likes first. *)
Theorem members_sorted_by_likes :
  (forall (SV : SortValues) (df : list row) (k : Z) (m : moment),
      In (k, m) (aggregate_timeline_comments df) ->
      StronglySorted (fun a b => likeCount b <= likeCount a) (comments m) /\
      exists m0,
        In (k, m0) (aggregate_timeline_comments_mainpage df) /\
        Permutation (comments m) (comments m0) /\
        forall v, filter (with_likes v) (comments m)
                  = filter (with_likes v) (comments m0)) /\
  (forall SV : SortValues,
      aggregate_timeline_comments_mainpage
        [comment_at (Some 0) 2; comment_at (Some 4) 7]
      = [(0, {| comments := [comment_at (Some 0) 2; comment_at (Some 4) 7];
                total_likes := 9; representative_time := 0 |})]) /\
  (forall SV : SortValues,
      aggregate_timeline_comments
        [comment_at (Some 0) 2; comment_at (Some 4) 7]
      = [(0, {| comments := [comment_at (Some 4) 7; comment_at (Some 0) 2];
                total_likes := 9; representative_time := 0 |})]) /\
  ~ StronglySorted (fun a b => likeCount b <= likeCount a)
      [comment_at (Some 0) 2; comment_at (Some 4) 7].
Proof.
  split; [|split; [|split]].
  - intros SV df k m Hm. rewrite aggregate_das_mainpage in Hm.
    apply in_map_iff in Hm as ([k0 m0] & E & Hm0).
    unfold sort_members in E. cbn [fst snd] in E. inversion E; subst.
    cbn [comments]. split; [apply (sorted_desc_sorted likeCount)|].
    exists m0. split; [exact Hm0|]. split; [apply sorted_desc_perm|].
    intros v. apply (sorted_desc_stable likeCount).
  - intros SV. unfold aggregate_timeline_comments_mainpage, aggregate.
    cbn [notna flat_map timestamp comment_at app List.length Nat.eqb].
    rewrite sort_values_of_sorted; [reflexivity|].
    repeat (constructor; [|repeat constructor]); constructor.
  - intros SV. unfold aggregate_timeline_comments, aggregate.
    cbn [notna flat_map timestamp comment_at app List.length Nat.eqb].
    rewrite sort_values_of_sorted; [reflexivity|].
    repeat (constructor; [|repeat constructor]); constructor.
  - intros S. inversion S as [|a l _ F]; subst.
    inversion F as [|b l' H _]; subst. simpl in H. lia.
Qed.

(** ** Clusters *)

Ltac run_walk :=
  unfold walk; cbn [fold_left];
  repeat (rewrite loop_body_eq;
          cbn [next_group Z.sub Z.add Z.opp Z.abs Z.gtb Z.compare
                 Pos.compare Pos.compare_cont Z.pos_sub Pos.pred_double
                 Z.succ_double Z.pred_double Z.double
                 update Z.eqb Pos.eqb comments total_likes
                 representative_time default_moment app fst snd]).

(** C3.  In the walk over the sorted rows, a row opens a new moment if and
    only if its timestamp differs from the current group by more than 5
    seconds; with a difference of at most 5, exactly 5 included, it joins
    the moment of the current group.  In particular comments at 0, 4 and
    11 seconds, in any order of arrival, give two moments: one keyed 0
    with the comments at 0 and 4, one keyed 11 with the comment at 11;
    and comments at 0 and 5 seconds give the one moment keyed 0. *)
Theorem cluster_opens_beyond_tolerance :
  (forall (s : script) (rows : list (Z * row)) (g t : Z) (r : row),
      StronglySorted by_timestamp (rows ++ [(t, r)]) ->
      fst (walk (arrange_of s) rows) = Some g ->
      let before := snd (walk (arrange_of s) rows) in
      let after := walk (arrange_of s) (rows ++ [(t, r)]) in
      (Z.abs (t - g) > 5 <->
       List.length (snd after) = S (List.length before)) /\
      (Z.abs (t - g) > 5 ->
       fst after = Some t /\
       snd after
       = before ++ [(t, {| comments := [r]; total_likes := likeCount r;
                           representative_time := t |})]) /\
      (Z.abs (t - g) <= 5 ->
       fst after = Some g /\
       keys (snd after) = keys before /\
       exists d0 m,
         before = d0 ++ [(g, m)] /\
         snd after
         = d0 ++ [(g, {| comments := arrange_of s (comments m ++ [r]);
                         total_likes := total_likes m + likeCount r;
                         representative_time := g |})])) /\
  (forall (SV : SortValues) (s : script) (r0 r4 r11 : row) (df : list row),
      timestamp r0 = Some 0 -> timestamp r4 = Some 4 ->
      timestamp r11 = Some 11 ->
      Permutation [r0; r4; r11] df ->
      aggregate_in s df
      = [(0, {| comments := arrange_of s [r0; r4];
                total_likes := likeCount r0 + likeCount r4;
                representative_time := 0 |});
         (11, {| comments := [r11]; total_likes := likeCount r11;
                 representative_time := 11 |})]) /\
  (forall (SV : SortValues) (s : script) (r0 r5 : row) (df : list row),
      timestamp r0 = Some 0 -> timestamp r5 = Some 5 ->
      Permutation [r0; r5] df ->
      aggregate_in s df
      = [(0, {| comments := arrange_of s [r0; r5];
                total_likes := likeCount r0 + likeCount r5;
                representative_time := 0 |})]).
Proof.
  split; [|split].
  - intros s rows g t r S Hg before after.
    pose proof (walk_ascending (arrange_of s) rows (sorted_snoc_inv _ _ S)) as A.
    subst before after. rewrite walk_snoc.
    destruct (walk (arrange_of s) rows) as [cur d]. cbn [fst snd] in *.
    subst cur.
    destruct (loop_body_ascending (arrange_of s) _ _ _ _ _ A S)
      as (d0 & m & Hd & Fk & Hle & ->).
    destruct (Z.abs (t - g) >? 5) eqn:E; rewrite Z.gtb_ltb in E.
    + apply Z.ltb_lt in E. cbn [fst snd]. rewrite arrange_of_one.
      split; [|split].
      * rewrite length_app, Nat.add_comm. simpl. split; auto. intros _. lia.
      * auto.
      * intros; lia.
    + apply Z.ltb_ge in E. cbn [fst snd]. split; [|split].
      * subst d. rewrite !length_app. simpl. split; intros; lia.
      * intros; lia.
      * intros _. split; [reflexivity|]. split; [|eauto].
        subst d. unfold keys. rewrite !map_app. reflexivity.
  - intros SV s r0 r4 r11 df H0 H4 H11 P.
    rewrite aggregate_in_eq.
    rewrite (sort_values_of_perm [(0, r0); (4, r4); (11, r11)]).
    + run_walk. rewrite arrange_of_snoc, !arrange_of_one. reflexivity.
    + repeat (constructor; [|repeat constructor]); constructor.
    + rewrite <- (notna_perm _ _ P). unfold notna. simpl.
      rewrite H0, H4, H11. reflexivity.
  - intros SV s r0 r5 df H0 H5 P.
    rewrite aggregate_in_eq.
    rewrite (sort_values_of_perm [(0, r0); (5, r5)]).
    + run_walk. rewrite arrange_of_snoc. reflexivity.
    + repeat (constructor; [|repeat constructor]); constructor.
    + rewrite <- (notna_perm _ _ P). unfold notna. simpl.
      rewrite H0, H5. reflexivity.
Qed.

Lemma cluster_opens_beyond_tolerance_witness :
  (StronglySorted by_timestamp
     ([(0, comment_at (Some 0) 2)] ++ [(5, comment_at (Some 5) 7)]) /\
   fst (walk (arrange_of das_py) [(0, comment_at (Some 0) 2)]) = Some 0 /\
   fst (walk (arrange_of das_py)
          ([(0, comment_at (Some 0) 2)] ++ [(5, comment_at (Some 5) 7)]))
   = Some 0) /\
  (StronglySorted by_timestamp
     ([(0, comment_at (Some 0) 2)] ++ [(6, comment_at (Some 6) 7)]) /\
   fst (walk (arrange_of das_py) [(0, comment_at (Some 0) 2)]) = Some 0 /\
   fst (walk (arrange_of das_py)
          ([(0, comment_at (Some 0) 2)] ++ [(6, comment_at (Some 6) 7)]))
   = Some 6).
Proof.
  assert (S5 : StronglySorted by_timestamp
                 ([(0, comment_at (Some 0) 2)] ++ [(5, comment_at (Some 5) 7)])).
  { repeat constructor. unfold by_timestamp. simpl. lia. }
  assert (S6 : StronglySorted by_timestamp
                 ([(0, comment_at (Some 0) 2)] ++ [(6, comment_at (Some 6) 7)])).
  { repeat constructor. unfold by_timestamp. simpl. lia. }
  assert (L5 : Z.abs (5 - 0) <= 5) by (simpl; lia).
  assert (L6 : Z.abs (6 - 0) > 5) by (simpl; lia).
  split; (split; [|split; [reflexivity|]]).
  - exact S5.
  - exact (proj1 (proj2 (proj2
             (proj1 cluster_opens_beyond_tolerance das_py
                [(0, comment_at (Some 0) 2)] 0 5 (comment_at (Some 5) 7)
                S5 eq_refl)) L5)).
  - exact S6.
  - exact (proj1 (proj1 (proj2
             (proj1 cluster_opens_beyond_tolerance das_py
                [(0, comment_at (Some 0) 2)] 0 6 (comment_at (Some 6) 7)
                S6 eq_refl)) L6)).
Defined.

(** C1, as the code has it.  Comments at 0, 4, 8 and 12 seconds, in any
    order of arrival, give two moments in both scripts: one keyed 0 with
    the comments at 0 and 4, one keyed 8 with the comments at 8 and 12:
    the comment at 8 is more than 5 seconds from the current group 0 and
    opens a moment of its own, which the comment at 12 joins. *)
Theorem chained_offsets_two_moments {SV : SortValues} (s : script)
  (r0 r4 r8 r12 : row) (df : list row) :
  timestamp r0 = Some 0 -> timestamp r4 = Some 4 ->
  timestamp r8 = Some 8 -> timestamp r12 = Some 12 ->
  Permutation [r0; r4; r8; r12] df ->
  aggregate_in s df
  = [(0, {| comments := arrange_of s [r0; r4];
            total_likes := likeCount r0 + likeCount r4;
            representative_time := 0 |});
     (8, {| comments := arrange_of s [r8; r12];
            total_likes := likeCount r8 + likeCount r12;
            representative_time := 8 |})].
Proof.
  intros H0 H4 H8 H12 P.
  rewrite aggregate_in_eq.
  rewrite (sort_values_of_perm [(0, r0); (4, r4); (8, r8); (12, r12)]).
  - run_walk. rewrite !arrange_of_snoc. reflexivity.
  - repeat (constructor; [|repeat constructor]); constructor.
  - rewrite <- (notna_perm _ _ P). unfold notna. simpl.
    rewrite H0, H4, H8, H12. reflexivity.
Qed.

Lemma chained_offsets_two_moments_witness :
  Permutation chained_rows
    [comment_at (Some 12) 1; comment_at (Some 0) 2;
     comment_at (Some 8) 3; comment_at (Some 4) 7] /\
  aggregate_in (SV := insertion_sort_values) das_py
    [comment_at (Some 12) 1; comment_at (Some 0) 2;
     comment_at (Some 8) 3; comment_at (Some 4) 7]
  = [(0, {| comments := arrange_of das_py
                          [comment_at (Some 0) 2; comment_at (Some 4) 7];
            total_likes := 2 + 7; representative_time := 0 |});
     (8, {| comments := arrange_of das_py
                          [comment_at (Some 8) 3; comment_at (Some 12) 1];
            total_likes := 3 + 1; representative_time := 8 |})].
Proof.
  assert (P : Permutation chained_rows
                [comment_at (Some 12) 1; comment_at (Some 0) 2;
                 comment_at (Some 8) 3; comment_at (Some 4) 7]).
  { unfold chained_rows.
    apply Permutation_sym.
    apply (Permutation_cons_app
             [comment_at (Some 0) 2; comment_at (Some 4) 7;
              comment_at (Some 8) 3] []).
    rewrite app_nil_r.
    apply perm_skip.
    apply perm_swap. }
  split; [exact P|].
  exact (chained_offsets_two_moments (SV := insertion_sort_values) das_py
           (comment_at (Some 0) 2) (comment_at (Some 4) 7)
           (comment_at (Some 8) 3) (comment_at (Some 12) 1) _
           eq_refl eq_refl eq_refl eq_refl P).
Defined.

(** C1, as the specification states it: four comments at 0, 4, 8 and 12
    seconds end up in one moment keyed 0. *)
Definition one_chained_moment (SV : SortValues) (s : script) : Prop :=
  forall df : list row,
    Permutation (map timestamp df) [Some 0; Some 4; Some 8; Some 12] ->
    exists m, aggregate_in s df = [(0, m)] /\ Permutation (comments m) df.

(** C1 fails in both scripts, whatever [sort_values] does with equal
    timestamps: on [chained_rows] the keys are 0 and 8. *)
Lemma chained_offsets_not_one_moment :
  keys (aggregate_in (SV := insertion_sort_values) das_py chained_rows)
  = [0; 8] /\
  keys (aggregate_in (SV := insertion_sort_values) das_mainpage_py chained_rows)
  = [0; 8] /\
  ~ (exists (SV : SortValues) (s : script), one_chained_moment SV s).
Proof.
  split; [reflexivity|]. split; [reflexivity|].
  intros (SV & s & H).
  destruct (H chained_rows (Permutation_refl _)) as (m & E & _).
  rewrite aggregate_in_eq in E.
  change (notna chained_rows)
    with [(0, comment_at (Some 0) 2); (4, comment_at (Some 4) 7);
          (8, comment_at (Some 8) 3); (12, comment_at (Some 12) 1)] in E.
  rewrite sort_values_of_sorted in E.
  - destruct s; vm_compute in E; discriminate E.
  - repeat (constructor; [|repeat constructor]); constructor.
Qed.

(** * Further properties of the aggregator *)

(** ** Likes *)

(** The likes of all moments of a timeline. *)
Definition sum_totals (d : timeline) : Z :=
  fold_right (fun x acc => total_likes (snd x) + acc) 0 d.

Lemma sum_totals_members (d : timeline) :
  Forall (fun x => total_likes (snd x) = sum_likes (comments (snd x))) d ->
  sum_totals d = sum_likes (members d).
Proof.
  induction 1 as [|x d Hx F IH]; [reflexivity|].
  cbn [sum_totals fold_right members flat_map].
  fold (sum_totals d). fold (members d).
  rewrite sum_likes_app, Hx, IH. reflexivity.
Qed.

(** X1.  [total_likes] of every moment is the sum of the likes of its members,
    and its [representative_time] is its key. *)
Theorem moment_totals_are_member_likes {SV : SortValues} (s : script)
  (df : list row) :
  Forall (fun x => total_likes (snd x) = sum_likes (comments (snd x)) /\
                   representative_time (snd x) = fst x)
    (aggregate_in s df).
Proof.
  eapply Forall_impl; [|apply aggregate_in_well_formed].
  intros x (R & T & _). auto.
Qed.

(** X2.  No like is lost or counted twice: the totals of all moments add up to
    the likes of the comments that have a timestamp. *)
Theorem likes_are_conserved {SV : SortValues} (s : script) (df : list row) :
  sum_totals (aggregate_in s df) = sum_likes (filter has_timestamp df).
Proof.
  rewrite sum_totals_members.
  - apply sum_likes_perm, aggregate_in_members.
  - eapply Forall_impl; [|apply aggregate_in_well_formed].
    intros x (_ & T & _). exact T.
Qed.

(** ** No moment is empty *)

Lemma walk_nonempty (arrange : list row -> list row)
  (arrange_perm : forall l, Permutation (arrange l) l)
  (rows : list (Z * row)) :
  Forall (fun x => comments (snd x) <> []) (snd (walk arrange rows)).
Proof.
  apply (walk_ind arrange
           (fun _ st => Forall (fun x => comments (snd x) <> []) (snd st))).
  - constructor.
  - intros seen [cur d] [t r] IH. rewrite loop_body_eq. cbn [snd] in *.
    assert (N : forall l, arrange (l ++ [r]) <> []).
    { intros l E. pose proof (arrange_perm (l ++ [r])) as P. rewrite E in P.
      apply Permutation_nil in P. destruct l; discriminate P. }
    apply update_Forall; [exact IH| |]; intros; cbn [snd comments]; apply N.
Qed.

(** [data['comments'][0]] of [display_moment] (src/das.py): [None] stands
    for the [IndexError] of an empty list. *)
Definition first_comment (data : moment) : option row :=
  nth_error (comments data) 0.

(** X3.  Every moment has a first comment, so [display_moment] can read it; in
    src/das.py no member of the moment has more likes than it. *)
Theorem moments_have_a_first_comment {SV : SortValues} (s : script)
  (df : list row) :
  Forall (fun x =>
            exists c, first_comment (snd x) = Some c /\
                      In c (comments (snd x)) /\
                      (s = das_py ->
                       Forall (fun r => likeCount r <= likeCount c)
                         (comments (snd x))))
    (aggregate_in s df).
Proof.
  assert (N : Forall (fun x => comments (snd x) <> []) (aggregate_in s df)).
  { rewrite aggregate_in_eq. apply walk_nonempty, arrange_of_perm. }
  assert (D : s = das_py ->
              Forall (fun x => StronglySorted (desc likeCount) (comments (snd x)))
                (aggregate_in s df)).
  { intros ->. unfold aggregate_in. rewrite aggregate_das_mainpage.
    apply Forall_forall. intros x Hx.
    apply in_map_iff in Hx as (x0 & <- & _). cbn [sort_members snd comments].
    apply sorted_desc_sorted. }
  apply Forall_forall. intros x Hx.
  pose proof (proj1 (Forall_forall _ _) N x Hx) as Nx. cbv beta in Nx.
  unfold first_comment. destruct (comments (snd x)) as [|c rest] eqn:E;
    [congruence|].
  exists c. split; [reflexivity|]. split; [left; reflexivity|].
  intros Hs. pose proof (proj1 (Forall_forall _ _) (D Hs) x Hx) as Dx.
  cbv beta in Dx. rewrite E in Dx.
  inversion Dx as [|c' l' _ F]; subst. constructor; [lia|].
  eapply Forall_impl; [|exact F]. unfold desc. auto.
Qed.

(** ** Where the moments lie *)

(** Two keys more than 5 seconds apart, the earlier first. *)
Definition apart (a b : Z) : Prop := a + 5 < b.

(** The key of a moment is the timestamp of one of its members, and every
    member was looked at with a timestamp in the 5 seconds from the key. *)
Definition in_cluster (seen : list (Z * row)) (x : Z * moment) : Prop :=
  (exists r, In r (comments (snd x)) /\ In (fst x, r) seen) /\
  Forall (fun r => exists t, In (t, r) seen /\ fst x <= t <= fst x + 5)
    (comments (snd x)).

Lemma in_cluster_mono (seen seen' : list (Z * row)) (x : Z * moment) :
  incl seen seen' -> in_cluster seen x -> in_cluster seen' x.
Proof.
  intros I ((r & Hr & Hk) & F). split; [eauto|].
  eapply Forall_impl; [|exact F]. intros r' (t & Hin & Ht). eauto.
Qed.

Lemma StronglySorted_snoc {A : Type} (R : A -> A -> Prop) (l : list A) (x : A) :
  StronglySorted R l -> Forall (fun y => R y x) l ->
  StronglySorted R (l ++ [x]).
Proof.
  induction l as [|a l IH]; simpl; intros S F.
  - constructor; constructor.
  - inversion S as [|a' l' S' Fa]; subst.
    inversion F as [|a' l' Ha F']; subst.
    constructor; [auto|].
    apply Forall_app. split; [exact Fa|]. constructor; [exact Ha|constructor].
Qed.

Section Clusters.
Variable arrange : list row -> list row.
Hypothesis arrange_perm : forall l, Permutation (arrange l) l.

Lemma walk_clusters (rows : list (Z * row)) :
  StronglySorted by_timestamp rows ->
  Forall (in_cluster rows) (snd (walk arrange rows)) /\
  StronglySorted apart (keys (snd (walk arrange rows))).
Proof.
  induction rows as [|[t r] rows IH] using rev_ind; intros S.
  - split; constructor.
  - pose proof (sorted_snoc_inv _ _ S) as S'.
    destruct (IH S') as (C & G). clear IH.
    pose proof (walk_ascending arrange rows S') as A.
    rewrite walk_snoc.
    destruct (walk arrange rows) as [cur d]. cbn [fst snd] in *.
    assert (Cm : Forall (in_cluster (rows ++ [(t, r)])) d).
    { eapply Forall_impl; [|exact C]. intros x.
      apply in_cluster_mono, incl_appl, incl_refl. }
    assert (Hin : In (t, r) (rows ++ [(t, r)]))
      by (apply in_or_app; right; left; reflexivity).
    destruct cur as [g|].
    + destruct (loop_body_ascending arrange _ _ _ _ _ A S)
        as (d0 & m & Hd & Fk & Hle & ->).
      destruct (Z.abs (t - g) >? 5) eqn:E; rewrite Z.gtb_ltb in E;
        cbn [fst snd].
      * apply Z.ltb_lt in E. split.
        -- apply Forall_app. split; [exact Cm|].
           constructor; [|constructor]. split; cbn [fst snd comments].
           ++ exists r. split; [|exact Hin].
              eapply Permutation_in; [symmetry; apply arrange_perm|].
              left; reflexivity.
           ++ eapply Permutation_Forall; [symmetry; apply arrange_perm|].
              constructor; [|constructor]. exists t. split; [exact Hin|lia].
        -- unfold keys. rewrite map_app. apply StronglySorted_snoc; [exact G|].
           subst d. unfold keys. rewrite map_app. apply Forall_app. split.
           ++ eapply Forall_impl; [|exact Fk]. unfold apart.
              intros k Hk. cbn [fst] in *. lia.
           ++ constructor; [unfold apart; simpl; lia|constructor].
      * apply Z.ltb_ge in E. subst d.
        apply Forall_app in Cm as (C0 & Cg).
        inversion Cg as [|x l ((r0 & Hr0 & Hk0) & Fm) _]; subst.
        cbn [fst snd] in *. split.
        -- apply Forall_app. split; [exact C0|].
           constructor; [|constructor]. split; cbn [fst snd comments].
           ++ exists r0. split; [|exact Hk0].
              eapply Permutation_in; [symmetry; apply arrange_perm|].
              apply in_or_app. left. exact Hr0.
           ++ eapply Permutation_Forall; [symmetry; apply arrange_perm|].
              apply Forall_app. split; [exact Fm|].
              constructor; [|constructor]. exists t. split; [exact Hin|lia].
        -- unfold keys in *. rewrite map_app in *. exact G.
    + unfold ascending_state in A. cbn [fst snd] in A.
      destruct A as (-> & ->). rewrite loop_body_eq. cbn. split.
      * constructor; [|constructor]. split; cbn [fst snd comments].
        -- exists r. split; [|left; reflexivity].
           eapply Permutation_in; [symmetry; apply arrange_perm|].
           left; reflexivity.
        -- eapply Permutation_Forall; [symmetry; apply arrange_perm|].
           constructor; [|constructor]. exists t. split; [left; reflexivity|lia].
      * constructor; constructor.
Qed.
End Clusters.

(** X4.  The moments lie in ascending order of their keys in the mapping, any
    two of them more than 5 seconds apart. *)
Theorem moments_are_apart {SV : SortValues} (s : script) (df : list row) :
  StronglySorted apart (keys (aggregate_in s df)).
Proof.
  rewrite aggregate_in_eq.
  apply (walk_clusters _ (arrange_of_perm s)), sort_values_sorted.
Qed.

(** X5.  The key of a moment is the timestamp of one of its members and the
    earliest of them: every member lies in the 5 seconds from the key. *)
Theorem key_is_earliest_member {SV : SortValues} (s : script) (df : list row) :
  Forall (fun x =>
            (exists r, In r (comments (snd x)) /\ timestamp r = Some (fst x)) /\
            Forall (fun r => exists t, timestamp r = Some t /\
                                       fst x <= t <= fst x + 5)
              (comments (snd x)))
    (aggregate_in s df).
Proof.
  rewrite aggregate_in_eq.
  eapply Forall_impl;
    [|apply (walk_clusters _ (arrange_of_perm s)), sort_values_sorted].
  intros x ((r & Hr & Hk) & F). split.
  - exists r. split; [exact Hr|].
    apply in_sort_values, in_notna in Hk. tauto.
  - eapply Forall_impl; [|exact F]. intros r' (t & Hin & Ht).
    apply in_sort_values, in_notna in Hin. exists t. tauto.
Qed.

(** ** The order of arrival *)

Lemma sorted_distinct_strict (l : list (Z * row)) :
  StronglySorted by_timestamp l -> NoDup (map fst l) ->
  StronglySorted (fun a b => fst a < fst b) l.
Proof.
  induction 1 as [|x l S IH F]; intros N; [constructor|].
  simpl in N. inversion N as [|x' l' Hx N']; subst.
  constructor; [auto|].
  rewrite Forall_forall in *. intros y Hy. specialize (F y Hy).
  unfold by_timestamp in F.
  assert (fst y <> fst x) by (intros E; apply Hx; rewrite <- E; apply in_map, Hy).
  lia.
Qed.

(** X6.  When the timestamps of the table differ from each other, the timeline
    depends neither on the order in which the comments arrive nor on the
    sorting algorithm of [sort_values]. *)
Theorem arrival_order_is_irrelevant (SV SV' : SortValues) (s : script)
  (df df' : list row) :
  NoDup (map fst (notna df)) ->
  Permutation df df' ->
  aggregate_in (SV := SV) s df = aggregate_in (SV := SV') s df'.
Proof.
  intros N P. rewrite !aggregate_in_eq. f_equal. f_equal.
  apply (sorted_perm_unique (sort_values (SortValues := SV') (notna df'))).
  - apply sorted_distinct_strict; [apply sort_values_sorted|].
    eapply Permutation_NoDup; [|exact N].
    apply Permutation_map.
    rewrite <- (sort_values_perm (SortValues := SV')).
    apply notna_perm, P.
  - apply sort_values_sorted.
  - rewrite <- !sort_values_perm. symmetry. apply notna_perm, P.
Qed.

(** ** The two scripts side by side *)

Lemma insert_desc_map {A B : Type} (key : B -> Z) (key' : A -> Z) (f : A -> B)
  (x : A) (l : list A) :
  (forall a, key (f a) = key' a) ->
  insert_desc key (f x) (map f l) = map f (insert_desc key' x l).
Proof.
  intros Hk. induction l as [|y l IH]; [reflexivity|].
  cbn [map insert_desc]. rewrite !Hk.
  destruct (key' x <? key' y); [|reflexivity].
  cbn [map]. rewrite IH. reflexivity.
Qed.

Lemma sorted_desc_map {A B : Type} (key : B -> Z) (key' : A -> Z) (f : A -> B)
  (l : list A) :
  (forall a, key (f a) = key' a) ->
  sorted_desc key (map f l) = map f (sorted_desc key' l).
Proof.
  intros Hk. induction l as [|x l IH]; [reflexivity|].
  cbn [map sorted_desc fold_right].
  fold (sorted_desc key (map f l)). fold (sorted_desc key' l).
  rewrite IH. apply insert_desc_map, Hk.
Qed.

(** X7.  The aggregators of src/das.py and src/das-mainpage.py build the same
    moments, with the same keys, totals and representative times and the
    same members, and the timeline views of the two scripts show the same
    moments in the same order: only the order of the members within a
    moment differs. *)
Theorem scripts_differ_in_member_order_only {SV : SortValues} (df : list row) :
  Forall2 (fun a b =>
             fst a = fst b /\
             total_likes (snd a) = total_likes (snd b) /\
             representative_time (snd a) = representative_time (snd b) /\
             Permutation (comments (snd a)) (comments (snd b)))
    (aggregate_timeline_comments df)
    (aggregate_timeline_comments_mainpage df) /\
  top_moments (aggregate_timeline_comments df)
  = map sort_members (top_moments (aggregate_timeline_comments_mainpage df)).
Proof.
  rewrite aggregate_das_mainpage. split.
  - induction (aggregate_timeline_comments_mainpage df) as [|x d IH];
      constructor; [|exact IH].
    cbn [sort_members fst snd comments total_likes representative_time].
    repeat split. apply sorted_desc_perm.
  - unfold top_moments.
    rewrite (sorted_desc_map _ (fun x => total_likes (snd x)) sort_members)
      by reflexivity.
    apply firstn_map.
Qed.

(** ** The moment the player starts at *)

Section Max.
Context {A : Type} (key : A -> Z).

(** The loop of [max(iterable, key=key)]: a later element replaces the
    best one only when its key is larger. *)
Fixpoint max_from (best : A) (l : list A) : A :=
  match l with
  | [] => best
  | x :: l' => max_from (if key best <? key x then x else best) l'
  end.

(** [max(l, key=key)]; [None] stands for the [ValueError] on an empty
    sequence. *)
Definition py_max (l : list A) : option A :=
  match l with
  | [] => None
  | x :: l' => Some (max_from x l')
  end.

Lemma max_from_cons (b x : A) (l : list A) :
  max_from b (x :: l)
  = if key b <? key (max_from x l) then max_from x l else b.
Proof.
  revert b x. induction l as [|y l IH]; intros b x.
  - reflexivity.
  - change (max_from b (x :: y :: l))
      with (max_from (if key b <? key x then x else b) (y :: l)).
    rewrite (IH _ y), (IH x y).
    generalize (max_from y l). intros m.
    destruct (key b <? key x) eqn:Ebx, (key x <? key m) eqn:Exm;
      try rewrite Ebx; try rewrite Exm; try reflexivity.
    + apply Z.ltb_lt in Ebx, Exm.
      destruct (key b <? key m) eqn:Ebm; [reflexivity|].
      apply Z.ltb_ge in Ebm. lia.
    + apply Z.ltb_ge in Ebx, Exm.
      destruct (key b <? key m) eqn:Ebm; [|reflexivity].
      apply Z.ltb_lt in Ebm. lia.
Qed.

(** [max] returns what the stable descending sort puts first. *)
Lemma py_max_is_first_sorted (l : list A) :
  py_max l = hd_error (sorted_desc key l).
Proof.
  induction l as [|x l IH]; [reflexivity|].
  cbn [py_max sorted_desc fold_right]. fold (sorted_desc key l).
  destruct l as [|y l].
  - reflexivity.
  - rewrite max_from_cons. cbn [py_max] in IH.
    destruct (sorted_desc key (y :: l)) as [|h t] eqn:E; [discriminate IH|].
    cbn [hd_error] in IH. inversion IH as [Eh]. cbn [insert_desc].
    destruct (key x <? key (max_from y l)); reflexivity.
Qed.
End Max.

(** [start_time] of [process_video]: 0, and with a timeline the key of
    [max(timeline_data.items(), key=lambda x: x[1]['total_likes'])]. *)
Definition start_time (timeline_data : timeline) : Z :=
  match py_max (fun x => total_likes (snd x)) timeline_data with
  | Some most_liked_moment => fst most_liked_moment
  | None => 0
  end.

(** X8.  The player starts at the moment the timeline view shows first: one
    with the most likes, and among those the earliest.  Without a moment
    it starts at 0. *)
Theorem player_starts_at_first_moment_shown {SV : SortValues} (s : script)
  (df : list row) :
  let timeline_data := aggregate_in s df in
  py_max (fun x => total_likes (snd x)) timeline_data
  = hd_error (top_moments timeline_data) /\
  (timeline_data = [] -> start_time timeline_data = 0) /\
  (forall best, py_max (fun x => total_likes (snd x)) timeline_data = Some best ->
     start_time timeline_data = fst best /\
     In best timeline_data /\
     Forall (fun x => total_likes (snd x) < total_likes (snd best) \/
                      (total_likes (snd x) = total_likes (snd best) /\
                       fst best <= fst x))
       timeline_data).
Proof.
  intros timeline_data.
  assert (H : py_max (fun x => total_likes (snd x)) timeline_data
              = hd_error (top_moments timeline_data)).
  { rewrite py_max_is_first_sorted. unfold top_moments.
    destruct (sorted_desc _ timeline_data); reflexivity. }
  split; [exact H|]. split.
  - intros E. unfold start_time. rewrite E. reflexivity.
  - intros best Hb. split; [unfold start_time; rewrite Hb; reflexivity|].
    rewrite py_max_is_first_sorted in Hb.
    pose proof (sorted_desc_perm (fun x => total_likes (snd x)) timeline_data)
      as P.
    assert (R : StronglySorted outranks (sorted_desc likes_of timeline_data))
      by apply sorted_desc_ranked, aggregate_in_times_ascending.
    assert (W : Forall (fun x => time_of x = fst x) timeline_data).
    { eapply Forall_impl; [|apply aggregate_in_well_formed].
      intros x (Rx & _). exact Rx. }
    change (fun x : Z * moment => total_likes (snd x)) with likes_of in *.
    destruct (sorted_desc likes_of timeline_data) as [|h t] eqn:E;
      [discriminate Hb|].
    inversion Hb; subst h.
    assert (Hin : In best timeline_data)
      by (eapply Permutation_in; [exact P|left; reflexivity]).
    split; [exact Hin|].
    inversion R as [|h' t' _ F]; subst.
    eapply Permutation_Forall; [exact P|].
    rewrite Forall_forall in W, F.
    constructor; [right; split; [reflexivity|lia]|].
    apply Forall_forall. intros x Hx.
    assert (Hxin : In x timeline_data)
      by (eapply Permutation_in; [exact P|right; exact Hx]).
    pose proof (W x Hxin) as Wx. pose proof (W best Hin) as Wb.
    specialize (F x Hx). unfold outranks, ranked_before, likes_of in F.
    unfold likes_of. lia.
Qed.

(** * Further properties of the extractor *)

(** X9.  What [parse_timestamp] returns is no timestamp or a number of seconds
    from 0 to 99:99:99, whatever the text; with two fields it is at most
    99:99. *)
Theorem parse_timestamp_range (txt : pystr) :
  parse_timestamp txt = Return None \/
  exists v, parse_timestamp txt = Return (Some v) /\ 0 <= v <= 362439.
Proof.
  unfold parse_timestamp.
  destruct (re_search timestamp_pattern txt) as [m|] eqn:E.
  - right. apply re_search_timestamp_inv in E as (fields & Hl & _).
    pose proof Hl as (F & _).
    destruct F as [mm ss Hm Hs|hh mm ss Hh Hm Hs].
    + rewrite (parse_timestamp_try_ms _ _ _ Hl). eexists. split; [reflexivity|].
      pose proof (digits_value_field_range _ Hm).
      assert (field_1_2 ss) by (destruct Hs; split; auto).
      pose proof (digits_value_field_range ss ltac:(assumption)). lia.
    + rewrite (parse_timestamp_try_hms _ _ _ _ Hl).
      eexists. split; [reflexivity|].
      pose proof (digits_value_field_range _ Hh).
      pose proof (digits_value_field_range _ Hm).
      assert (field_1_2 ss) by (destruct Hs; split; auto).
      pose proof (digits_value_field_range ss ltac:(assumption)). lia.
  - left. unfold parse_timestamp_try. rewrite E. reflexivity.
Qed.

(** * Numbers as text *)

Definition digit_char (d : Z) : char := Latin (ascii_of_nat (48 + Z.to_nat d)).

(** The decimal digits of a number that is not negative, most significant
    first; [fuel] bounds their number. *)
Fixpoint digits_of (fuel : nat) (n : Z) : pystr :=
  match fuel with
  | O => []
  | S fuel' =>
      if n <? 10 then [digit_char n]
      else digits_of fuel' (n / 10) ++ [digit_char (n mod 10)]
  end.

(** An integer in decimal, as [%d] writes it: it has at most [log2 n + 1]
    digits. *)
Definition decimal_text (n : Z) : pystr :=
  if n <? 0
  then Latin "-" :: digits_of (S (Z.to_nat (Z.log2 (- n)))) (- n)
  else digits_of (S (Z.to_nat (Z.log2 n))) n.

(** [str(n)] of an [int], and [n] in an f-string: a number of more than
    [max_str_digits] digits, the sign not counted, raises [ValueError]. *)
Definition py_str (n : Z) : result pystr :=
  if max_str_digits <? Z.of_nat (List.length (decimal_text (Z.abs n)))
  then Raise ValueError
  else Return (decimal_text n).

(** The integers [str] writes. *)
Definition fits (n : Z) : Prop := Z.abs n < 10 ^ max_str_digits.

Lemma digit_char_spec (d : Z) :
  0 <= d <= 9 ->
  is_digit (digit_char d) = true /\ digit_value (digit_char d) = d.
Proof.
  intros Hd. unfold is_digit, digit_value, digit_char.
  rewrite nat_ascii_embedding by lia. split.
  - apply andb_true_intro. split; apply Nat.leb_le; lia.
  - lia.
Qed.

Lemma digits_value_snoc (ds : pystr) (c : char) :
  digits_value (ds ++ [c]) = 10 * digits_value ds + digit_value c.
Proof. unfold digits_value. rewrite fold_left_app. reflexivity. Qed.

Lemma digits_app (a b : pystr) : digits a -> digits b -> digits (a ++ b).
Proof.
  unfold digits. intros Ha Hb. rewrite forallb_app, Ha, Hb. reflexivity.
Qed.

Lemma digits_of_spec (fuel : nat) :
  forall n, 0 <= n < 2 ^ Z.of_nat fuel -> (0 < fuel)%nat ->
  digits (digits_of fuel n) /\ digits_of fuel n <> [] /\
  digits_value (digits_of fuel n) = n.
Proof.
  induction fuel as [|fuel IH]; intros n Hn Hf; [lia|].
  cbn [digits_of]. destruct (n <? 10) eqn:E.
  - apply Z.ltb_lt in E.
    destruct (digit_char_spec n ltac:(lia)) as (D & V).
    unfold digits, digits_value. cbn [forallb fold_left].
    rewrite D, V. repeat split. discriminate.
  - apply Z.ltb_ge in E.
    rewrite Nat2Z.inj_succ, Z.pow_succ_r in Hn by lia.
    assert (Hq : 0 <= n / 10 < 2 ^ Z.of_nat fuel).
    { split; [apply Z.div_pos; lia|].
      apply Z.div_lt_upper_bound; lia. }
    assert (Hq1 : 1 <= n / 10) by (apply Z.div_le_lower_bound; lia).
    assert (Hfuel : (0 < fuel)%nat).
    { destruct fuel; [|lia]. change (2 ^ Z.of_nat 0) with 1 in Hq. lia. }
    destruct (IH _ Hq Hfuel) as (D & N & V).
    destruct (digit_char_spec (n mod 10)) as (Dc & Vc).
    { pose proof (Z.mod_pos_bound n 10). lia. }
    repeat split.
    + apply digits_app; [exact D|]. unfold digits. cbn [forallb].
      rewrite Dc. reflexivity.
    + intros C. apply app_eq_nil in C as (_ & C). discriminate C.
    + rewrite digits_value_snoc, V, Vc.
      pose proof (Z.div_mod n 10). lia.
Qed.

(** [str] of a number that is not negative is a string of digits, and
    [int] reads the number back. *)
Lemma decimal_text_spec (n : Z) :
  0 <= n ->
  digits (decimal_text n) /\ decimal_text n <> [] /\ digits_value (decimal_text n) = n.
Proof.
  intros Hn. unfold decimal_text.
  destruct (n <? 0) eqn:E; [apply Z.ltb_lt in E; lia|].
  apply digits_of_spec; [|lia].
  rewrite Nat2Z.inj_succ, Z2Nat.id by apply Z.log2_nonneg.
  split; [exact Hn|].
  destruct (Z.eq_dec n 0) as [->|Hz]; [reflexivity|].
  apply Z.log2_spec. lia.
Qed.

(** A number below [10 ^ k] has at most [k] digits, and a string of [k]
    digits is a number below [10 ^ k]. *)
Lemma digits_of_length (fuel : nat) :
  forall n k, 0 <= n < 10 ^ Z.of_nat k -> (0 < k)%nat ->
  (List.length (digits_of fuel n) <= k)%nat.
Proof.
  induction fuel as [|fuel IH]; intros n k Hn Hk; cbn [digits_of];
    [cbn [List.length]; lia|].
  destruct (n <? 10) eqn:E; [cbn [List.length]; lia|].
  apply Z.ltb_ge in E.
  destruct k as [|k]; [lia|].
  rewrite Nat2Z.inj_succ, Z.pow_succ_r in Hn by lia.
  rewrite length_app. cbn [List.length].
  assert (Hq : 0 <= n / 10 < 10 ^ Z.of_nat k).
  { split; [apply Z.div_pos; lia|].
    apply Z.div_lt_upper_bound; lia. }
  assert (Hk' : (0 < k)%nat).
  { destruct k; [|lia]. change (10 ^ Z.of_nat 0) with 1 in Hn. lia. }
  specialize (IH _ _ Hq Hk'). lia.
Qed.

Lemma digits_value_bound (ds : pystr) :
  digits ds -> 0 <= digits_value ds < 10 ^ Z.of_nat (List.length ds).
Proof.
  induction ds as [|c ds IH] using rev_ind; intros D.
  - unfold digits_value. cbn [fold_left List.length].
    change (10 ^ Z.of_nat 0) with 1. lia.
  - unfold digits in D. rewrite forallb_app in D.
    apply andb_prop in D as [D Dc]. cbn [forallb] in Dc.
    apply andb_prop in Dc as [Dc _].
    specialize (IH D). pose proof (digit_value_range c Dc).
    rewrite digits_value_snoc, length_app. cbn [List.length].
    rewrite Nat.add_1_r, Nat2Z.inj_succ, Z.pow_succ_r by lia. lia.
Qed.

Lemma decimal_text_length (n : Z) :
  0 <= n ->
  (Z.of_nat (List.length (decimal_text n)) <= max_str_digits
   <-> n < 10 ^ max_str_digits).
Proof.
  intros Hn. split.
  - intros L. destruct (decimal_text_spec n Hn) as (D & _ & V).
    pose proof (digits_value_bound _ D) as B. rewrite V in B.
    apply Z.lt_le_trans with (1 := proj2 B).
    apply Z.pow_le_mono_r; lia.
  - intros B. unfold decimal_text.
    destruct (n <? 0) eqn:E; [apply Z.ltb_lt in E; lia|].
    pose proof (digits_of_length (S (Z.to_nat (Z.log2 n))) n 4300) as L.
    change (Z.of_nat 4300) with max_str_digits in L.
    specialize (L (conj Hn B) ltac:(lia)).
    clear B. unfold max_str_digits. lia.
Qed.

Lemma decimal_text_opp (n : Z) :
  0 < n -> decimal_text (- n) = Latin "-" :: decimal_text n.
Proof.
  intros Hn. unfold decimal_text.
  destruct (Z.ltb_spec (- n) 0); [|lia].
  destruct (Z.ltb_spec n 0); [lia|].
  rewrite Z.opp_involutive. reflexivity.
Qed.

(** [str] writes the integers that fit, and no others. *)
Lemma py_str_fits (n : Z) : fits n -> py_str n = Return (decimal_text n).
Proof.
  unfold fits, py_str. intros F.
  destruct (Z.ltb_spec max_str_digits
              (Z.of_nat (List.length (decimal_text (Z.abs n)))));
    [|reflexivity].
  apply decimal_text_length in F; [lia | apply Z.abs_nonneg].
Qed.

Lemma py_str_raises (n : Z) : ~ fits n -> py_str n = Raise ValueError.
Proof.
  unfold fits, py_str. intros F.
  destruct (Z.ltb_spec max_str_digits
              (Z.of_nat (List.length (decimal_text (Z.abs n)))));
    [reflexivity|].
  exfalso. apply F. apply decimal_text_length; [apply Z.abs_nonneg | assumption].
Qed.

Lemma py_str_inv (n : Z) (s : pystr) :
  py_str n = Return s -> fits n /\ s = decimal_text n.
Proof.
  intros E. destruct (Z.lt_ge_cases (Z.abs n) (10 ^ max_str_digits)) as [F|F].
  - rewrite (py_str_fits n F) in E. inversion E. split; [exact F | reflexivity].
  - rewrite py_str_raises in E by (unfold fits; lia). discriminate E.
Qed.

(** The text of a number is made of digits behind, for a negative one, a
    sign. *)
Lemma decimal_text_chars (n : Z) (c : char) :
  In c (decimal_text n) -> c = Latin "-" \/ is_digit c = true.
Proof.
  destruct (Z.lt_ge_cases n 0) as [Hn|Hn].
  - replace n with (- (- n)) by lia. rewrite decimal_text_opp by lia.
    intros [<-|H]; [left; reflexivity|right].
    destruct (decimal_text_spec (- n) ltac:(lia)) as (D & _).
    unfold digits in D. rewrite forallb_forall in D. exact (D _ H).
  - intros H. right. destruct (decimal_text_spec n Hn) as (D & _).
    unfold digits in D. rewrite forallb_forall in D. exact (D _ H).
Qed.

(** [int] reads back what fits. *)
Lemma py_int_decimal_text (n : Z) :
  0 <= n < 10 ^ max_str_digits -> py_int (decimal_text n) = Return n.
Proof.
  intros Hn. destruct (decimal_text_spec n (proj1 Hn)) as (D & N & V).
  rewrite <- V at 2. apply py_int_digits; auto.
  apply decimal_text_length; lia.
Qed.

Lemma decimal_text_one_digit (n : Z) : 0 <= n < 10 -> decimal_text n = [digit_char n].
Proof.
  intros Hn. unfold decimal_text.
  destruct (n <? 0) eqn:E; [apply Z.ltb_lt in E; lia|].
  cbn [digits_of]. destruct (n <? 10) eqn:E10; [reflexivity|].
  apply Z.ltb_ge in E10. lia.
Qed.

Lemma decimal_text_two_digits (n : Z) :
  10 <= n < 100 -> decimal_text n = [digit_char (n / 10); digit_char (n mod 10)].
Proof.
  intros Hn. unfold decimal_text.
  destruct (n <? 0) eqn:E; [apply Z.ltb_lt in E; lia|].
  assert (L : 3 <= Z.log2 n).
  { change 3 with (Z.log2 10). apply Z.log2_le_mono. lia. }
  destruct (Z.to_nat (Z.log2 n)) as [|f] eqn:Ef; [lia|].
  cbn [digits_of]. destruct (n <? 10) eqn:E10; [apply Z.ltb_lt in E10; lia|].
  assert (Hq : n / 10 < 10) by (apply Z.div_lt_upper_bound; lia).
  apply Z.ltb_lt in Hq. rewrite Hq. reflexivity.
Qed.

Lemma decimal_text_field_1_2 (n : Z) :
  0 <= n < 100 -> field_1_2 (decimal_text n) /\ digits_value (decimal_text n) = n.
Proof.
  intros Hn. destruct (decimal_text_spec n ltac:(lia)) as (D & _ & V).
  split; [|exact V]. split; [exact D|].
  destruct (Z.lt_ge_cases n 10).
  - rewrite decimal_text_one_digit by lia. left. reflexivity.
  - rewrite decimal_text_two_digits by lia. right. reflexivity.
Qed.

(** * The label of a moment *)

(** ["%02d" % n]: at least two characters, padded with a zero. *)
Definition fmt_02d (n : Z) : pystr :=
  let s := decimal_text n in
  if (List.length s <? 2)%nat then Latin "0" :: s else s.

(** [timedelta(seconds=n)]: the days and the seconds of the day.  [None]
    stands for the [OverflowError] of a number of days beyond
    999999999. *)
Definition timedelta (seconds : Z) : option (Z * Z) :=
  let days := seconds / 86400 in
  if Z.abs days >? 999999999 then None else Some (days, seconds mod 86400).

(** [str] of a [timedelta] without microseconds. *)
Definition timedelta_str (d : Z * Z) : pystr :=
  let '(days, seconds) := d in
  let mm := seconds / 60 in
  let ss := seconds mod 60 in
  let hh := mm / 60 in
  let mm := mm mod 60 in
  let s := decimal_text hh ++ colon :: fmt_02d mm ++ colon :: fmt_02d ss in
  if days =? 0 then s
  else decimal_text days ++ lit " day"
       ++ (if Z.abs days =? 1 then [] else lit "s") ++ lit ", " ++ s.

(** [seconds_to_timestamp], on whole seconds: [int(seconds)] is the number
    itself, and every exception gives ["00:00:00"]. *)
Definition seconds_to_timestamp (seconds : Z) : pystr :=
  match timedelta seconds with
  | Some d => timedelta_str d
  | None => lit "00:00:00"
  end.

Example seconds_to_timestamp_hms :
  seconds_to_timestamp 3930 = lit "1:05:30".
Proof. reflexivity. Qed.

Example seconds_to_timestamp_days :
  seconds_to_timestamp 90061 = lit "1 day, 1:01:01" /\
  seconds_to_timestamp 180000 = lit "2 days, 2:00:00" /\
  seconds_to_timestamp (-1) = lit "-1 day, 23:59:59".
Proof. repeat split. Qed.

Lemma fmt_02d_field_2 (n : Z) :
  0 <= n < 100 -> field_2 (fmt_02d n) /\ digits_value (fmt_02d n) = n.
Proof.
  intros Hn. unfold fmt_02d. destruct (Z.lt_ge_cases n 10).
  - rewrite decimal_text_one_digit by lia. cbn [List.length Nat.ltb Nat.leb].
    destruct (digit_char_spec n ltac:(lia)) as (D & V).
    split; [split; [|reflexivity]|].
    + unfold digits. cbn [forallb]. rewrite D. reflexivity.
    + unfold digits_value. cbn [fold_left]. rewrite V. reflexivity.
  - destruct (decimal_text_spec n ltac:(lia)) as (D & _ & V).
    rewrite decimal_text_two_digits in * by lia. cbn [List.length Nat.ltb Nat.leb].
    split; [split; [exact D|reflexivity]|exact V].
Qed.

(** The search passes over a character that is no digit, and over digits
    that no colon follows. *)
Lemma re_match_not_digit (c : char) (u : pystr) :
  is_digit c = false -> re_match timestamp_pattern (c :: u) = None.
Proof.
  intros D. unfold re_match, timestamp_pattern, digit_1_2, digit_2.
  cbn [bt]. rewrite D. reflexivity.
Qed.

Lemma re_search_not_digit (c : char) (u : pystr) :
  is_digit c = false ->
  re_search timestamp_pattern (c :: u) = re_search timestamp_pattern u.
Proof.
  intros D. cbn [re_search]. rewrite (re_match_not_digit c u D). reflexivity.
Qed.

Lemma re_match_digits_no_colon (ds : pystr) (c : char) (u : pystr) :
  digits ds -> is_digit c = false -> char_eqb c colon = false ->
  re_match timestamp_pattern (ds ++ c :: u) = None.
Proof.
  unfold digits. intros D Dc Cc.
  destruct ds as [|d1 [|d2 [|d3 ds]]]; cbn [forallb] in D;
    repeat match goal with
    | H : _ && _ = true |- _ => apply andb_prop in H as [? H]
    end;
    unfold re_match, timestamp_pattern, digit_1_2, digit_2;
    repeat (cbn [bt option_map app];
            repeat match goal with
            | H : is_digit ?x = _ |- context [is_digit ?x] => rewrite H
            | H : is_digit ?x = true |- context [char_eqb ?x colon] =>
                rewrite (digit_not_colon x H)
            | H : char_eqb ?x colon = _ |- context [char_eqb ?x colon] =>
                rewrite H
            end);
    reflexivity.
Qed.

Lemma re_search_digits_no_colon (ds : pystr) (c : char) (u : pystr) :
  digits ds -> is_digit c = false -> char_eqb c colon = false ->
  re_search timestamp_pattern (ds ++ c :: u) = re_search timestamp_pattern u.
Proof.
  intros D Dc Cc. induction ds as [|d ds IH].
  - apply re_search_not_digit, Dc.
  - change ((d :: ds) ++ c :: u) with (d :: (ds ++ c :: u)).
    cbn [re_search].
    change (d :: (ds ++ c :: u)) with ((d :: ds) ++ c :: u).
    rewrite (re_match_digits_no_colon _ _ _ D Dc Cc).
    apply IH. unfold digits in *. cbn [forallb] in D.
    apply andb_prop in D as [_ D]. exact D.
Qed.

Lemma re_search_skip (pre u : pystr) :
  forallb (fun c => negb (is_digit c)) pre = true ->
  re_search timestamp_pattern (pre ++ u) = re_search timestamp_pattern u.
Proof.
  induction pre as [|c pre IH]; cbn [forallb app]; intros H; [reflexivity|].
  apply andb_prop in H as [Hc H]. apply negb_true_iff in Hc.
  rewrite (re_search_not_digit _ _ Hc). auto.
Qed.

(** The search passes over a number that a blank follows. *)
Lemma re_search_decimal_text_blank (n : Z) (u : pystr) :
  re_search timestamp_pattern (decimal_text n ++ Latin " " :: u)
  = re_search timestamp_pattern u.
Proof.
  unfold decimal_text. destruct (n <? 0) eqn:En.
  - apply Z.ltb_lt in En.
    destruct (decimal_text_spec (- n) ltac:(lia)) as (D & _ & _).
    unfold decimal_text in D.
    destruct (- n <? 0) eqn:En'; [apply Z.ltb_lt in En'; lia|].
    cbn [app]. rewrite re_search_not_digit by reflexivity.
    apply re_search_digits_no_colon; auto.
  - pose proof En as En'. apply Z.ltb_ge in En'.
    destruct (decimal_text_spec n En') as (D & _ & _).
    unfold decimal_text in D. rewrite En in D.
    apply re_search_digits_no_colon; auto.
Qed.

(** In the text of a [timedelta] the search finds the time of day. *)
Lemma re_search_timedelta_str (days seconds : Z) :
  0 <= seconds < 86400 ->
  let hh := decimal_text (seconds / 60 / 60) in
  let mm := fmt_02d (seconds / 60 mod 60) in
  let ss := fmt_02d (seconds mod 60) in
  field_1_2 hh /\ field_2 mm /\ field_2 ss /\
  digits_value hh * 3600 + digits_value mm * 60 + digits_value ss = seconds /\
  re_search timestamp_pattern (timedelta_str (days, seconds))
  = Some (join colon [hh; mm; ss]).
Proof.
  intros Hs hh mm ss.
  assert (H60 : 0 <= seconds / 60 < 1440).
  { split; [apply Z.div_pos; lia|apply Z.div_lt_upper_bound; lia]. }
  assert (Hh : 0 <= seconds / 60 / 60 < 24).
  { split; [apply Z.div_pos; lia|apply Z.div_lt_upper_bound; lia]. }
  pose proof (Z.mod_pos_bound (seconds / 60) 60 ltac:(lia)) as Hm.
  pose proof (Z.mod_pos_bound seconds 60 ltac:(lia)) as Hsec.
  destruct (decimal_text_field_1_2 (seconds / 60 / 60) ltac:(lia)) as (Fh & Vh).
  destruct (fmt_02d_field_2 (seconds / 60 mod 60) ltac:(lia)) as (Fm & Vm).
  destruct (fmt_02d_field_2 (seconds mod 60) ltac:(lia)) as (Fs & Vs).
  fold hh in Fh, Vh. fold mm in Fm, Vm. fold ss in Fs, Vs.
  split; [exact Fh|]. split; [exact Fm|]. split; [exact Fs|]. split.
  { rewrite Vh, Vm, Vs.
    pose proof (Z.div_mod seconds 60 ltac:(lia)).
    pose proof (Z.div_mod (seconds / 60) 60 ltac:(lia)). lia. }
  assert (M : forall pre,
             (forall u, re_search timestamp_pattern (pre ++ u)
                        = re_search timestamp_pattern u) ->
             re_search timestamp_pattern (pre ++ join colon [hh; mm; ss])
             = Some (join colon [hh; mm; ss])).
  { intros pre Hpre. rewrite Hpre.
    assert (Fm' : field_1_2 mm) by (destruct Fm; split; auto).
    pose proof (re_match_hms hh mm ss [] Fh Fm' Fs) as R.
    rewrite app_nil_r in R.
    destruct (join colon [hh; mm; ss]) as [|c u] eqn:E;
      cbn [re_search]; rewrite R; reflexivity. }
  unfold timedelta_str. fold hh mm ss.
  change (hh ++ colon :: mm ++ colon :: ss) with (join colon [hh; mm; ss]).
  destruct (days =? 0) eqn:Ed.
  - apply (M []). reflexivity.
  - apply Z.eqb_neq in Ed.
    assert (Hday : forall u,
               re_search timestamp_pattern (decimal_text days ++ lit " day" ++ u)
               = re_search timestamp_pattern (lit "day" ++ u)).
    { intros u. apply (re_search_decimal_text_blank days (lit "day" ++ u)). }
    rewrite Hday.
    destruct (Z.abs days =? 1).
    + apply (M (lit "day" ++ [] ++ lit ", ")).
      intros u. apply (re_search_skip (lit "day, ")). reflexivity.
    + apply (M (lit "day" ++ lit "s" ++ lit ", ")).
      intros u. apply (re_search_skip (lit "days, ")). reflexivity.
Qed.

(** X10.  The label [seconds_to_timestamp] gives a moment reads back, with
    [parse_timestamp], as the moment's time of day: as the time itself
    below 24 hours, and as the seconds past the last full day beyond
    (the label then starts with the days). *)
Theorem label_parses_back (seconds : Z) :
  (Z.abs (seconds / 86400) <= 999999999 ->
   parse_timestamp (seconds_to_timestamp seconds)
   = Return (Some (seconds mod 86400))) /\
  (0 <= seconds < 86400 ->
   parse_timestamp (seconds_to_timestamp seconds) = Return (Some seconds)).
Proof.
  assert (G : Z.abs (seconds / 86400) <= 999999999 ->
              parse_timestamp (seconds_to_timestamp seconds)
              = Return (Some (seconds mod 86400))).
  { intros Hd. unfold seconds_to_timestamp, timedelta.
    destruct (Z.abs (seconds / 86400) >? 999999999) eqn:E.
    { rewrite Z.gtb_ltb in E. apply Z.ltb_lt in E. lia. }
    pose proof (Z.mod_pos_bound seconds 86400 ltac:(lia)) as Hs.
    destruct (re_search_timedelta_str (seconds / 86400) _ Hs)
      as (Fh & Fm & Fs & V & R).
    assert (Fm' : field_1_2 (fmt_02d ((seconds mod 86400) / 60 mod 60)))
      by (destruct Fm; split; auto).
    unfold parse_timestamp, parse_timestamp_try. rewrite R.
    rewrite py_split_join by (constructor; assumption).
    cbn [List.length Nat.eqb map_result].
    rewrite (py_int_field_1_2 _ Fh), (py_int_field_1_2 _ Fm'),
      (py_int_field_2 _ Fs).
    cbn [bind except_return_none]. rewrite V. reflexivity. }
  split; [exact G|].
  intros Hs. rewrite G.
  - rewrite Z.mod_small by lia. reflexivity.
  - rewrite Z.div_small by lia. simpl. lia.
Qed.

(** * Links *)

(** [s.startswith(sep)] *)
Fixpoint starts_with (sep s : pystr) : bool :=
  match sep, s with
  | [], _ => true
  | a :: sep', c :: s' => char_eqb a c && starts_with sep' s'
  | _ :: _, [] => false
  end.

(** [sep in s] *)
Fixpoint contains (sep s : pystr) : bool :=
  starts_with sep s ||
  match s with
  | [] => false
  | _ :: s' => contains sep s'
  end.

(** [s.split(sep)] for a separator that is not empty: the text is read
    from the left; at an occurrence of the separator a new part starts and
    the [skip] characters left of the separator are passed over. *)
Fixpoint split_from (sep : pystr) (skip : nat) (s : pystr) : list pystr :=
  match s with
  | [] => [[]]
  | c :: s' =>
      match skip with
      | S k => split_from sep k s'
      | O =>
          if starts_with sep s
          then [] :: split_from sep (List.length sep - 1) s'
          else match split_from sep 0 s' with
               | p :: ps => (c :: p) :: ps
               | [] => [[c]]
               end
      end
  end.

Definition py_split_str (sep s : pystr) : list pystr := split_from sep 0 s.

Example py_split_str_example :
  py_split_str (lit "&t=") (lit "a&t=1&t=&t") = [lit "a"; lit "1"; lit "&t"].
Proof. reflexivity. Qed.

(** [url.split(sep)[0]]: a split has a first part. *)
Definition first_part (sep url : pystr) : pystr :=
  hd [] (py_split_str sep url).

(** [create_timestamp_link], on whole seconds: [int(seconds)] is the
    number itself, and the f-string writes it with [str]. *)
Definition create_timestamp_link (url : pystr) (seconds : Z) : result pystr :=
  let base_url := first_part (lit "&t=") url in
  n <- py_str seconds ;;
  Return (base_url ++ lit "&t=" ++ n ++ lit "s").

(** [url.split('watch?v=')[1].split('&')[0]] of [process_video],
    [get_video_info] and [create_youtube_embed]; [None] stands for the
    [IndexError] of a split with one part. *)
Definition video_id (url : pystr) : option pystr :=
  match py_split_str (lit "watch?v=") url with
  | _ :: after :: _ => Some (hd [] (py_split (Latin "&") after))
  | _ => None
  end.

(** The address the scripts give a video of the start page:
    [f"https://www.youtube.com/watch?v={item['id']}"]. *)
Definition watch_url (id : pystr) : pystr :=
  lit "https://www.youtube.com/watch?v=" ++ id.

Example create_timestamp_link_example :
  create_timestamp_link (lit "https://www.youtube.com/watch?v=abc&t=10s") 75
  = Return (lit "https://www.youtube.com/watch?v=abc&t=75s").
Proof. reflexivity. Qed.

Example video_id_example :
  video_id (lit "https://www.youtube.com/watch?v=abc&t=10s") = Some (lit "abc") /\
  video_id (lit "https://youtu.be/abc") = None.
Proof. split; reflexivity. Qed.

Lemma split_from_not_nil (sep : pystr) (s : pystr) :
  forall skip, split_from sep skip s <> [].
Proof.
  induction s as [|c s IH]; intros skip; cbn [split_from]; [discriminate|].
  destruct skip as [|k]; [|apply IH].
  destruct (starts_with sep (c :: s)); [discriminate|].
  destruct (split_from sep 0 s); discriminate.
Qed.

Lemma first_part_cons (sep : pystr) (c : char) (s : pystr) :
  first_part sep (c :: s)
  = if starts_with sep (c :: s) then [] else c :: first_part sep s.
Proof.
  unfold first_part, py_split_str. cbn [split_from].
  destruct (starts_with sep (c :: s)); [reflexivity|].
  pose proof (split_from_not_nil sep s 0).
  destruct (split_from sep 0 s); [congruence|reflexivity].
Qed.

(** The first part is the text when the separator does not occur. *)
Lemma first_part_absent (sep s : pystr) :
  contains sep s = false -> first_part sep s = s.
Proof.
  induction s as [|c s IH]; intros C; [reflexivity|].
  cbn [contains] in C. apply orb_false_iff in C as (C1 & C2).
  rewrite first_part_cons, C1, (IH C2). reflexivity.
Qed.

Lemma starts_with_true (sep s : pystr) :
  starts_with sep s = true <-> exists t, s = sep ++ t.
Proof.
  revert s. induction sep as [|a sep IH]; intros s; cbn [starts_with].
  - split; [intros _; exists s; reflexivity|reflexivity].
  - destruct s as [|c s].
    + split; [discriminate|]. intros (t & E). discriminate E.
    + rewrite andb_true_iff, char_eqb_eq, IH. split.
      * intros (-> & t & ->). exists t. reflexivity.
      * intros (t & E). inversion E. eauto.
Qed.

Lemma first_part_prefix (sep s : pystr) :
  exists t, s = first_part sep s ++ t.
Proof.
  induction s as [|c s (t & IH)]; [exists []; reflexivity|].
  rewrite first_part_cons. destruct (starts_with sep (c :: s)).
  - exists (c :: s). reflexivity.
  - exists t. cbn [app]. rewrite <- IH. reflexivity.
Qed.

(** What is left of a text in front of ["&t="] holds no ["&t="], also
    with a ["&t="] behind it. *)
Lemma first_part_timestamp_again (url rest : pystr) :
  first_part (lit "&t=") (first_part (lit "&t=") url ++ lit "&t=" ++ rest)
  = first_part (lit "&t=") url.
Proof.
  induction url as [|c url IH]; [reflexivity|].
  rewrite (first_part_cons _ c url).
  destruct (starts_with (lit "&t=") (c :: url)) eqn:E; [reflexivity|].
  change ((c :: ?x) ++ ?y) with (c :: (x ++ y)).
  rewrite first_part_cons, IH.
  destruct (starts_with (lit "&t=")
              (c :: first_part (lit "&t=") url ++ lit "&t=" ++ rest)) eqn:G;
    [|reflexivity].
  exfalso. apply starts_with_true in G as (t & G).
  destruct (first_part_prefix (lit "&t=") url) as (t0 & Hurl).
  assert (S : starts_with (lit "&t=") (c :: url) = true).
  { apply starts_with_true. rewrite Hurl.
    destruct (first_part (lit "&t=") url) as [|x [|y fp]];
      cbn [lit list_ascii_of_string app] in G; inversion G; subst.
    exists (fp ++ t0). reflexivity. }
  congruence.
Qed.

Lemma create_timestamp_link_fits (url : pystr) (seconds : Z) :
  fits seconds ->
  create_timestamp_link url seconds
  = Return (first_part (lit "&t=") url ++ lit "&t="
            ++ decimal_text seconds ++ lit "s").
Proof.
  intros F. unfold create_timestamp_link. rewrite (py_str_fits _ F).
  reflexivity.
Qed.

Lemma create_timestamp_link_raises (url : pystr) (seconds : Z) :
  ~ fits seconds -> create_timestamp_link url seconds = Raise ValueError.
Proof.
  intros F. unfold create_timestamp_link. rewrite (py_str_raises _ F).
  reflexivity.
Qed.

Lemma create_timestamp_link_inv (url : pystr) (seconds : Z) (link : pystr) :
  create_timestamp_link url seconds = Return link ->
  fits seconds /\
  link = first_part (lit "&t=") url ++ lit "&t="
         ++ decimal_text seconds ++ lit "s".
Proof.
  unfold create_timestamp_link. intros E.
  destruct (py_str seconds) as [n|e] eqn:P; [|discriminate E].
  apply py_str_inv in P as (F & ->). cbn [bind] in E. inversion E.
  split; [exact F | reflexivity].
Qed.

(** X11.  [create_timestamp_link] replaces the timestamp of a link: when it
    made a link, what it does with that link and a number of seconds is
    what it does with the address the link was made from: the same link,
    or the same [ValueError] for a number [str] does not write. *)
Theorem create_timestamp_link_replaces (url link : pystr) (a b : Z) :
  create_timestamp_link url a = Return link ->
  create_timestamp_link link b = create_timestamp_link url b.
Proof.
  intros E. apply create_timestamp_link_inv in E as (_ & ->).
  unfold create_timestamp_link.
  rewrite first_part_timestamp_again. reflexivity.
Qed.

(** ** The video of an address *)

Lemma contains_no_head (a : char) (sep s : pystr) :
  ~ In a s -> contains (a :: sep) s = false.
Proof.
  induction s as [|c s IH]; intros N; [reflexivity|].
  cbn [contains starts_with].
  destruct (char_eqb a c) eqn:E.
  - apply char_eqb_eq in E. subst c. exfalso. apply N. left. reflexivity.
  - cbn [andb orb]. apply IH. intros H. apply N. right. exact H.
Qed.

Lemma starts_with_app_other (sep x : pystr) (c : char) (b : pystr) :
  ~ In c sep -> starts_with sep (x ++ c :: b) = true -> starts_with sep x = true.
Proof.
  revert x. induction sep as [|a sep IH]; intros x N H; [reflexivity|].
  destruct x as [|y x]; cbn [app starts_with] in *.
  - apply andb_prop in H as [H _]. apply char_eqb_eq in H. subst c.
    exfalso. apply N. left. reflexivity.
  - apply andb_prop in H as [H1 H2]. rewrite H1. cbn [andb].
    apply IH; [|exact H2]. intros Hin. apply N. right. exact Hin.
Qed.

Lemma contains_app_other (sep a : pystr) (c : char) (b : pystr) :
  ~ In c sep -> contains sep a = false -> contains sep (c :: b) = false ->
  contains sep (a ++ c :: b) = false.
Proof.
  intros N Ha Hb. induction a as [|x a IH]; [exact Hb|].
  cbn [contains] in Ha. apply orb_false_iff in Ha as (Hx & Ha).
  cbn [app contains]. rewrite (IH Ha), orb_false_r.
  destruct (starts_with sep (x :: a ++ c :: b)) eqn:E; [|reflexivity].
  apply (starts_with_app_other sep (x :: a) c b N) in E. congruence.
Qed.

Lemma split_from_absent (sep s : pystr) :
  contains sep s = false -> split_from sep 0 s = [s].
Proof.
  induction s as [|c s IH]; intros C; [reflexivity|].
  cbn [contains] in C. apply orb_false_iff in C as (C1 & C2).
  cbn [split_from]. rewrite C1, (IH C2). reflexivity.
Qed.

(** A split has a second part exactly when the separator occurs. *)
Lemma split_from_second (a : char) (sep s : pystr) :
  contains (a :: sep) s = true <->
  exists p q ps, split_from (a :: sep) 0 s = p :: q :: ps.
Proof.
  induction s as [|c s IH].
  - split; [discriminate|]. intros (p & q & ps & E). discriminate E.
  - cbn [contains split_from].
    destruct (starts_with (a :: sep) (c :: s)) eqn:E.
    + split; [|reflexivity]. intros _.
      pose proof (split_from_not_nil (a :: sep) s
                    (List.length (a :: sep) - 1)) as N.
      destruct (split_from (a :: sep) (List.length (a :: sep) - 1) s)
        as [|q ps]; [congruence|]. eauto.
    + cbn [orb]. rewrite IH.
      pose proof (split_from_not_nil (a :: sep) s 0) as N.
      destruct (split_from (a :: sep) 0 s) as [|p [|q ps]]; [congruence| |].
      * split; intros (p' & q' & ps' & H); discriminate H.
      * split; intros _; eauto.
Qed.

Lemma py_split_hd_clean (c : char) (s : pystr) :
  ~ In c (hd [] (py_split c s)).
Proof.
  induction s as [|x s IH]; cbn [py_split]; [intros []|].
  destruct (char_eqb x c) eqn:E; [intros []|].
  destruct (py_split c s) as [|p ps]; cbn [hd] in *.
  - intros [H|[]]. subst x. rewrite char_eqb_refl in E. discriminate E.
  - intros [H|H]; [|exact (IH H)].
    subst x. rewrite char_eqb_refl in E. discriminate E.
Qed.

Lemma py_split_hd_before (c : char) (s rest : pystr) :
  ~ In c s ->
  hd [] (py_split c s) = s /\ hd [] (py_split c (s ++ c :: rest)) = s.
Proof.
  induction s as [|x s IH]; intros N.
  - split; [reflexivity|]. cbn [app py_split]. rewrite char_eqb_refl.
    reflexivity.
  - assert (E : char_eqb x c = false).
    { destruct (char_eqb x c) eqn:E; [|reflexivity].
      apply char_eqb_eq in E. subst x. exfalso. apply N. left. reflexivity. }
    destruct IH as (IH1 & IH2); [intros H; apply N; right; exact H|].
    cbn [app py_split]. rewrite E. split.
    + destruct (py_split c s); cbn [hd] in *; subst; reflexivity.
    + destruct (py_split c (s ++ c :: rest)); cbn [hd] in *; subst; reflexivity.
Qed.

(** X12.  Reading the video of an address fails (with [IndexError]) exactly when
    ["watch?v="] does not occur in it, as in a short [youtu.be] address;
    the video it reads otherwise holds no ["&"]. *)
Theorem video_id_needs_watch (url : pystr) :
  (video_id url = None <-> contains (lit "watch?v=") url = false) /\
  (forall id, video_id url = Some id -> ~ In (Latin "&") id).
Proof.
  unfold video_id, py_split_str.
  pose proof (split_from_second (Latin "w") (lit "atch?v=") url) as S.
  change (Latin "w" :: lit "atch?v=") with (lit "watch?v=") in S.
  pose proof (split_from_not_nil (lit "watch?v=") url 0) as N.
  destruct (split_from (lit "watch?v=") 0 url) as [|p [|q ps]];
    [congruence| |]; split.
  - split; [intros _|reflexivity].
    destruct (contains (lit "watch?v=") url); [|reflexivity].
    destruct (proj1 S eq_refl) as (p' & q' & ps' & H). discriminate H.
  - intros id H. discriminate H.
  - split; [discriminate|]. intros C.
    rewrite (proj2 S) in C by eauto. discriminate C.
  - intros id H. inversion H. apply py_split_hd_clean.
Qed.

Lemma py_split_str_watch_url (x : pystr) :
  py_split_str (lit "watch?v=") (watch_url x)
  = lit "https://www.youtube.com/" :: py_split_str (lit "watch?v=") x.
Proof. reflexivity. Qed.

(** X13.  The video the scripts read from an address they made is the video the
    address was made for, and so for a timestamp link to it, whatever the
    number of seconds: the link is the address with the seconds behind it
    when [str] writes the number, it is not made ([ValueError]) when not. *)
Theorem video_id_of_watch_url (id : pystr) (seconds : Z) :
  ~ In (Latin "&") id ->
  contains (lit "watch?v=") id = false ->
  video_id (watch_url id) = Some id /\
  (fits seconds ->
   create_timestamp_link (watch_url id) seconds
   = Return (watch_url id ++ lit "&t=" ++ decimal_text seconds ++ lit "s")) /\
  (~ fits seconds ->
   create_timestamp_link (watch_url id) seconds = Raise ValueError) /\
  (forall link,
      create_timestamp_link (watch_url id) seconds = Return link ->
      video_id link = Some id).
Proof.
  intros Namp Nwatch.
  assert (V : forall tail,
             contains (lit "watch?v=") (id ++ tail) = false ->
             hd [] (py_split (Latin "&") (id ++ tail)) = id ->
             video_id (watch_url id ++ tail) = Some id).
  { intros tail C H. unfold video_id.
    replace (watch_url id ++ tail) with (watch_url (id ++ tail))
      by (unfold watch_url; rewrite app_assoc; reflexivity).
    rewrite py_split_str_watch_url. unfold py_split_str.
    rewrite (split_from_absent _ _ C), H. reflexivity. }
  assert (B : first_part (lit "&t=") (watch_url id) = watch_url id).
  { apply first_part_absent, contains_no_head.
    unfold watch_url. rewrite in_app_iff.
    intros [H|H]; [|exact (Namp H)].
    cbn in H. intuition discriminate. }
  split; [|split; [|split]].
  - rewrite <- (app_nil_r (watch_url id)). apply V; rewrite app_nil_r.
    + exact Nwatch.
    + apply (py_split_hd_before _ _ []), Namp.
  - intros F. rewrite (create_timestamp_link_fits _ _ F), B. reflexivity.
  - apply create_timestamp_link_raises.
  - intros link E. apply create_timestamp_link_inv in E as (_ & ->).
    rewrite B. apply V.
    + apply contains_app_other; [cbn; intuition discriminate|exact Nwatch|].
      apply contains_no_head. intros [H|H]; [discriminate H|].
      change (In (Latin "w") (lit "t=" ++ decimal_text seconds ++ lit "s")) in H.
      rewrite !in_app_iff in H. destruct H as [H|[H|H]].
      * cbn in H. intuition discriminate.
      * apply decimal_text_chars in H as [H|H]; discriminate H.
      * cbn in H. intuition discriminate.
    + apply (py_split_hd_before _ _ (lit "t=" ++ decimal_text seconds ++ lit "s")),
        Namp.
Qed.

(** * The length of a video *)

(** The digits at the head of a text, and what follows them. *)
Fixpoint span_digits (s : pystr) : pystr * pystr :=
  match s with
  | c :: s' =>
      if is_digit c
      then let (ds, rest) := span_digits s' in (c :: ds, rest)
      else ([], s)
  | [] => ([], [])
  end.

(** A group [(?:(\d+)X)?] of the pattern of [parse_duration] at the head
    of [s]: what [(\d+)] captured, and the text behind the group.  The
    greedy [\d+] takes all digits at the head; with fewer, a digit and not
    [X] would follow, so the group matches exactly when the digits are
    there and [X] is behind them.  The engine prefers the group to
    skipping it, and never comes back to skip it, since all that follows
    in the pattern can match the empty text. *)
Definition duration_group (unit : char) (s : pystr) : option pystr * pystr :=
  match span_digits s with
  | (d :: ds, c :: rest) =>
      if char_eqb c unit then (Some (d :: ds), rest) else (None, s)
  | _ => (None, s)
  end.

(** [int(match.group(i) or 0)]: a group that took part in the match is a
    text that is not empty. *)
Definition int_or_0 (group : option pystr) : result Z :=
  match group with
  | Some ds => py_int ds
  | None => Return 0
  end.

(** [parse_duration], with
    [re.match(r'PT(?:(\d+)H)?(?:(\d+)M)?(?:(\d+)S)?', duration)]. *)
Definition parse_duration (duration : pystr) : result Z :=
  if starts_with (lit "PT") duration then
    let s := skipn 2 duration in
    let (g1, s1) := duration_group (Latin "H") s in
    let (g2, s2) := duration_group (Latin "M") s1 in
    let (g3, _) := duration_group (Latin "S") s2 in
    hours <- int_or_0 g1 ;;
    minutes <- int_or_0 g2 ;;
    seconds <- int_or_0 g3 ;;
    Return (hours * 3600 + minutes * 60 + seconds)
  else Return 0.

Example parse_duration_examples :
  parse_duration (lit "PT1H2M3S") = Return 3723 /\
  parse_duration (lit "PT15M") = Return 900 /\
  parse_duration (lit "PT59S") = Return 59 /\
  parse_duration (lit "PT") = Return 0 /\
  parse_duration (lit "P1DT2H") = Return 0 /\
  parse_duration (lit "PT3S2M") = Return 3.
Proof. repeat split. Qed.

Lemma span_digits_digits (s : pystr) :
  digits (fst (span_digits s)) /\
  s = fst (span_digits s) ++ snd (span_digits s).
Proof.
  unfold digits. induction s as [|c s (D & E)]; [split; reflexivity|].
  cbn [span_digits]. destruct (is_digit c) eqn:Dc; [|split; reflexivity].
  destruct (span_digits s) as [ds rest]. cbn [fst snd forallb app] in *.
  rewrite Dc, D, <- E. split; reflexivity.
Qed.

Lemma span_digits_until (ds : pystr) (c : char) (rest : pystr) :
  digits ds -> is_digit c = false ->
  span_digits (ds ++ c :: rest) = (ds, c :: rest).
Proof.
  unfold digits. intros D Dc. induction ds as [|d ds IH]; cbn [app span_digits].
  - rewrite Dc. reflexivity.
  - cbn [forallb] in D. apply andb_prop in D as [Dd D].
    rewrite Dd, (IH D). reflexivity.
Qed.

Lemma digits_value_nonneg (ds : pystr) : digits ds -> 0 <= digits_value ds.
Proof.
  unfold digits, digits_value.
  enough (G : forall acc, 0 <= acc -> forallb is_digit ds = true ->
                          0 <= fold_left (fun a c => 10 * a + digit_value c) ds acc)
    by (apply G; lia).
  induction ds as [|d ds IH]; intros acc Ha D; [exact Ha|].
  cbn [forallb] in D. apply andb_prop in D as [Dd D].
  cbn [fold_left]. apply IH; [|exact D].
  pose proof (digit_value_range d Dd). lia.
Qed.

(** A group leaves no more text than it found, and the number [int] makes
    of it is not negative; [int] raises on a group of more than
    [max_str_digits] digits, which the unit follows. *)
Lemma duration_group_sound (unit : char) (s : pystr) :
  (List.length (snd (duration_group unit s)) <= List.length s)%nat /\
  match int_or_0 (fst (duration_group unit s)) with
  | Return v => 0 <= v
  | Raise e => e = ValueError /\ max_str_digits + 1 < Z.of_nat (List.length s)
  end.
Proof.
  unfold duration_group.
  destruct (span_digits_digits s) as (D & E).
  destruct (span_digits s) as [[|d ds] [|c rest]]; cbn [fst snd] in *;
    try (split; [lia | cbn [int_or_0]; lia]).
  assert (L : List.length s = (List.length (d :: ds) + S (List.length rest))%nat)
    by (rewrite E at 1; rewrite length_app; reflexivity).
  destruct (char_eqb c unit); cbn [fst snd int_or_0];
    [|split; [lia | lia]].
  split; [lia|].
  unfold py_int. unfold digits in D. rewrite D.
  destruct (Z.ltb_spec max_str_digits (Z.of_nat (List.length (d :: ds)))).
  - split; [reflexivity | lia].
  - apply digits_value_nonneg, D.
Qed.

Lemma starts_with_length (sep s : pystr) :
  starts_with sep s = true -> (List.length sep <= List.length s)%nat.
Proof.
  intros H. apply starts_with_true in H as (t & ->).
  rewrite length_app. lia.
Qed.

(** X14.  [parse_duration] returns a number that is not negative or raises
    [ValueError], and it returns on a text of up to [max_str_digits + 3]
    characters: [int] raises on more than [max_str_digits] digits, which
    stand between [PT] and a unit.  A text that does not start with [PT]
    has length 0, and so has the duration of a video of a day or more,
    which starts with [P1DT]. *)
Theorem parse_duration_total (duration : pystr) :
  ((exists v, parse_duration duration = Return v /\ 0 <= v) \/
   parse_duration duration = Raise ValueError) /\
  (Z.of_nat (List.length duration) <= max_str_digits + 3 ->
   exists v, parse_duration duration = Return v /\ 0 <= v) /\
  (starts_with (lit "PT") duration = false ->
   parse_duration duration = Return 0).
Proof.
  assert (C : match parse_duration duration with
              | Return v => 0 <= v
              | Raise e =>
                  e = ValueError /\
                  max_str_digits + 3 < Z.of_nat (List.length duration)
              end).
  { unfold parse_duration.
    destruct (starts_with (lit "PT") duration) eqn:P; [|lia].
    apply starts_with_length in P. cbn [lit list_ascii_of_string map List.length] in P.
    pose proof (length_skipn 2 duration) as L0.
    cbv zeta.
    pose proof (duration_group_sound (Latin "H") (skipn 2 duration)) as (L1 & Hh).
    destruct (duration_group (Latin "H") (skipn 2 duration)) as [g1 s1].
    cbn [fst snd] in L1, Hh.
    pose proof (duration_group_sound (Latin "M") s1) as (L2 & Hm).
    destruct (duration_group (Latin "M") s1) as [g2 s2]. cbn [fst snd] in L2, Hm.
    pose proof (duration_group_sound (Latin "S") s2) as (L3 & Hs).
    destruct (duration_group (Latin "S") s2) as [g3 s3]. cbn [fst snd] in L3, Hs.
    destruct (int_or_0 g1) as [h|e1]; cbn [bind];
      [|destruct Hh as (-> & Hh); split; [reflexivity | lia]].
    destruct (int_or_0 g2) as [m|e2]; cbn [bind];
      [|destruct Hm as (-> & Hm); split; [reflexivity | lia]].
    destruct (int_or_0 g3) as [x|e3]; cbn [bind];
      [|destruct Hs as (-> & Hs); split; [reflexivity | lia]].
    lia. }
  split; [|split].
  - destruct (parse_duration duration) as [v|e].
    + left. exists v. split; [reflexivity | exact C].
    + right. destruct C as (-> & _). reflexivity.
  - intros L. destruct (parse_duration duration) as [v|e].
    + exists v. split; [reflexivity | exact C].
    + destruct C as (_ & C). lia.
  - intros H. unfold parse_duration. rewrite H. reflexivity.
Qed.

(** A component of a duration: a number and its unit, or nothing. *)
Definition component (n : option Z) (unit : char) : pystr :=
  match n with
  | Some v => decimal_text v ++ [unit]
  | None => []
  end.

Definition amount (n : option Z) : Z :=
  match n with
  | Some v => v
  | None => 0
  end.

(** The amounts [int] reads back from their text. *)
Definition readable (n : option Z) : Prop :=
  0 <= amount n < 10 ^ max_str_digits.

Lemma duration_group_match (unit : char) (v : Z) (rest : pystr) :
  0 <= v -> is_digit unit = false ->
  duration_group unit (component (Some v) unit ++ rest)
  = (Some (decimal_text v), rest).
Proof.
  intros Hv Du. destruct (decimal_text_spec v Hv) as (D & N & _).
  unfold duration_group, component. rewrite <- app_assoc. cbn [app].
  rewrite (span_digits_until _ _ _ D Du).
  destruct (decimal_text v); [congruence|]. rewrite char_eqb_refl. reflexivity.
Qed.

Lemma duration_group_other (unit other : char) (v : Z) (rest : pystr) :
  0 <= v -> is_digit other = false -> char_eqb other unit = false ->
  duration_group unit (component (Some v) other ++ rest)
  = (None, component (Some v) other ++ rest).
Proof.
  intros Hv Do E. destruct (decimal_text_spec v Hv) as (D & N & _).
  unfold duration_group, component. rewrite <- app_assoc. cbn [app].
  rewrite (span_digits_until _ _ _ D Do).
  destruct (decimal_text v); [congruence|]. rewrite E. reflexivity.
Qed.

Lemma duration_group_step (unit : char) (n : option Z) (rest : pystr) :
  readable n -> is_digit unit = false ->
  duration_group unit rest = (None, rest) ->
  duration_group unit (component n unit ++ rest) = (option_map decimal_text n, rest).
Proof.
  intros Hn Du Hr. destruct n as [v|]; [|exact Hr].
  apply duration_group_match; [exact (proj1 Hn) | assumption].
Qed.

Lemma duration_group_skip (unit other : char) (n : option Z) (rest : pystr) :
  readable n -> is_digit other = false -> char_eqb other unit = false ->
  duration_group unit rest = (None, rest) ->
  duration_group unit (component n other ++ rest)
  = (None, component n other ++ rest).
Proof.
  intros Hn Do E Hr. destruct n as [v|]; [|exact Hr].
  apply duration_group_other; [exact (proj1 Hn) | assumption | assumption].
Qed.

Lemma int_or_0_decimal_text (n : option Z) :
  readable n -> int_or_0 (option_map decimal_text n) = Return (amount n).
Proof.
  destruct n as [v|]; intros Hn; [|reflexivity].
  apply py_int_decimal_text, Hn.
Qed.

(** X15.  [parse_duration] reads a duration written with hours, minutes and
    seconds, each of them there or not and none of more than
    [max_str_digits] digits, as the seconds it stands for. *)
Theorem parse_duration_reads_components (h m s : option Z) :
  readable h -> readable m -> readable s ->
  parse_duration (lit "PT" ++ component h "H" ++ component m "M"
                  ++ component s "S")
  = Return (amount h * 3600 + amount m * 60 + amount s).
Proof.
  intros Hh Hm Hs.
  change (lit "PT" ++ ?x) with (Latin "P" :: Latin "T" :: x).
  unfold parse_duration.
  change (starts_with (lit "PT") (Latin "P" :: Latin "T" :: ?x)) with true.
  cbn [skipn]. cbv zeta.
  rewrite <- (app_nil_r (component s "S")).
  rewrite (duration_group_step "H" h) by
    (try assumption; try reflexivity;
     repeat (apply duration_group_skip; try assumption; try reflexivity)).
  rewrite (duration_group_step "M" m) by
    (try assumption; try reflexivity;
     repeat (apply duration_group_skip; try assumption; try reflexivity)).
  rewrite (duration_group_step "S" s) by
    (try assumption; try reflexivity).
  rewrite !int_or_0_decimal_text by assumption. reflexivity.
Qed.

(** * The analysis of a video *)

(** [comments_df['timestamp'] = comments_df['text'].apply(parse_timestamp)]:
    the column is set, row after row; an exception of [parse_timestamp]
    would escape. *)
Definition with_timestamp (r : row) (ts : option Z) : row :=
  {| text := text r; authorDisplayName := authorDisplayName r;
     likeCount := likeCount r; publishedAt := publishedAt r;
     timestamp := ts |}.

Definition add_timestamps (comments_df : list row) : result (list row) :=
  map_result (fun r => ts <- parse_timestamp (text r) ;;
                       Return (with_timestamp r ts))
    comments_df.

(** The part of [process_video] between the comments and the page: the
    start time and the timeline.  For a table without rows
    ([comments_df.empty]) they stay 0 and [{}]. *)
Definition analyse {SV : SortValues} (s : script) (comments_df : list row)
  : result (Z * timeline) :=
  match comments_df with
  | [] => Return (0, [])
  | _ =>
      rows <- add_timestamps comments_df ;;
      let timeline_data := aggregate_in s rows in
      Return (start_time timeline_data, timeline_data)
  end.

(** What [parse_timestamp] finds in a text. *)
Definition extract (txt : pystr) : option Z :=
  match parse_timestamp txt with
  | Return v => v
  | Raise _ => None
  end.

Definition mentions_time (r : row) : bool :=
  match extract (text r) with
  | Some _ => true
  | None => false
  end.

Lemma parse_timestamp_extract (txt : pystr) :
  parse_timestamp txt = Return (extract txt).
Proof.
  unfold extract, parse_timestamp.
  destruct (parse_timestamp_try txt); reflexivity.
Qed.

Lemma add_timestamps_returns (comments_df : list row) :
  add_timestamps comments_df
  = Return (map (fun r => with_timestamp r (extract (text r))) comments_df).
Proof.
  unfold add_timestamps. induction comments_df as [|r df IH]; [reflexivity|].
  cbn [map_result map]. rewrite parse_timestamp_extract. cbn [bind].
  rewrite IH. reflexivity.
Qed.

(** X16.  The analysis of a video raises on no table of comments.  Every
    comment it puts under a moment mentions, as its first timestamp, a
    time at most 5 seconds from the moment's key; the comments under the
    moments are the comments that mention a time, each once; and the
    player starts at 0 or at the key of a moment. *)
Theorem analysis_of_comments {SV : SortValues} (s : script)
  (comments_df : list row) :
  exists start timeline_data,
    analyse s comments_df = Return (start, timeline_data) /\
    Forall (fun x =>
              Forall (fun r => exists t,
                          parse_timestamp (text r) = Return (Some t) /\
                          Z.abs (t - fst x) <= 5)
                (comments (snd x)))
      timeline_data /\
    Permutation (members timeline_data)
      (map (fun r => with_timestamp r (extract (text r)))
         (filter mentions_time comments_df)) /\
    (start = 0 \/ In start (keys timeline_data)).
Proof.
  set (rows := map (fun r => with_timestamp r (extract (text r))) comments_df).
  assert (A : analyse s comments_df
              = Return (start_time (aggregate_in s rows), aggregate_in s rows)).
  { unfold analyse. destruct comments_df as [|r df]; [destruct s; reflexivity|].
    rewrite add_timestamps_returns. reflexivity. }
  exists (start_time (aggregate_in s rows)), (aggregate_in s rows).
  split; [exact A|]. split; [|split].
  - eapply Forall_impl; [|apply aggregate_in_well_formed].
    intros x (_ & _ & F). eapply Forall_impl; [|exact F].
    intros r (t & Hin & Ht). exists t. split; [|exact Ht].
    apply in_notna in Hin as (Hin & Hts).
    unfold rows in Hin. apply in_map_iff in Hin as (r0 & <- & _).
    cbn [with_timestamp text timestamp] in *.
    rewrite parse_timestamp_extract, Hts. reflexivity.
  - rewrite aggregate_in_members. unfold rows.
    clear A rows. induction comments_df as [|r df IH]; [reflexivity|].
    cbn [map filter]. unfold has_timestamp at 1, mentions_time at 1.
    cbn [with_timestamp timestamp].
    destruct (extract (text r)) eqn:E; cbn [map]; rewrite ?E, IH; reflexivity.
  - unfold start_time.
    destruct (py_max (fun x => total_likes (snd x)) (aggregate_in s rows))
      as [best|] eqn:E; [|left; reflexivity].
    right. rewrite py_max_is_first_sorted in E.
    apply in_map.
    apply (Permutation_in _
             (sorted_desc_perm (fun x => total_likes (snd x))
                (aggregate_in s rows))).
    destruct (sorted_desc (fun x => total_likes (snd x)) (aggregate_in s rows))
      as [|h t]; [discriminate E|].
    inversion E. left. reflexivity.
Qed.

End Unicode.

(** * A Unicode database *)

(** The zeros of some blocks of decimal digits: Arabic-Indic, Extended
    Arabic-Indic, Devanagari, Bengali, Thai and the fullwidth forms.  The
    nine code points behind a zero are the digits 1 to 9. *)
Definition decimal_zeros : list N := [1632; 1776; 2406; 2534; 3664; 65296]%N.

Definition decimal_of (cp : N) : option Z :=
  match find (fun z => (z <=? cp) && (cp <? z + 10))%N decimal_zeros with
  | Some z => Some (Z.of_N (cp - z))
  | None => None
  end.

Lemma decimal_of_range (cp : N) (d : Z) :
  decimal_of cp = Some d -> 0 <= d <= 9.
Proof.
  unfold decimal_of.
  destruct (find _ decimal_zeros) as [z|] eqn:F; [|discriminate].
  apply find_some in F as (_ & F). apply andb_prop in F as (F1 & F2).
  apply N.leb_le in F1. apply N.ltb_lt in F2.
  intros E. inversion E. lia.
Qed.

(** A part of the database of an interpreter, for the examples below.
    What is proved above holds with every database, the one of the
    interpreter among them. *)
#[export] Instance some_unicode_data : UnicodeData :=
  {| decimal n := decimal_of (256 + n);
     decimal_range n := decimal_of_range (256 + n) |}.

(** [chr(cp)] *)
Definition chr (cp : N) : char :=
  if (cp <? 256)%N then Latin (ascii_of_N cp) else Beyond (cp - 256).

(** Digits that are not ['0'..'9'] are read as well: full-width
    ["1:23"], alone and in front of ["4:56"], and Arabic-Indic digits in
    a duration. *)
Example parse_timestamp_fullwidth :
  parse_timestamp (map chr [65297; 58; 65298; 65299]%N) = Return (Some 83) /\
  parse_timestamp (map chr [65297; 58; 65298; 65299]%N ++ lit " 4:56")
  = Return (Some 83) /\
  leftmost_timestamp (map chr [65297; 58; 65298; 65299]%N ++ lit " 4:56")
    [map chr [65297]%N; map chr [65298; 65299]%N].
Proof.
  split; [reflexivity|]. split; [reflexivity|].
  exact (leftmost_timestamp_of_search
           (map chr [65297; 58; 65298; 65299]%N ++ lit " 4:56")
           (map chr [65297; 58; 65298; 65299]%N) eq_refl).
Qed.

Example parse_duration_arabic_indic :
  parse_duration (lit "PT" ++ map chr [1633; 1634]%N ++ lit "M") = Return 720.
Proof. reflexivity. Qed.

(** More than [max_str_digits] digits are not read, and not written. *)
Example py_int_limit :
  py_int (repeat (Latin "1") 4300)
  = Return (digits_value (repeat (Latin "1") 4300)) /\
  py_int (repeat (Latin "1") 4301) = Raise ValueError /\
  parse_duration (lit "PT" ++ repeat (Latin "1") 4301 ++ lit "H")
  = Raise ValueError.
Proof.
  split; [|split].
  - apply py_int_digits.
    + discriminate.
    + unfold digits. apply forallb_forall. intros c H.
      apply repeat_spec in H. subst c. reflexivity.
    + rewrite repeat_length. discriminate.
  - vm_compute. reflexivity.
  - vm_compute. reflexivity.
Qed.

Example py_str_limit :
  py_str (10 ^ 4300 - 1) = Return (decimal_text (10 ^ 4300 - 1)) /\
  py_str (10 ^ 4300) = Raise ValueError /\
  create_timestamp_link (lit "u") (- 10 ^ 4300) = Raise ValueError.
Proof.
  assert (P : 0 < 10 ^ 4300)
    by (apply Z.pow_pos_nonneg; [reflexivity | discriminate]).
  assert (F : forall p, 0 < p -> p = 10 ^ max_str_digits ->
              py_str (p - 1) = Return (decimal_text (p - 1)) /\
              py_str p = Raise ValueError /\
              create_timestamp_link (lit "u") (- p) = Raise ValueError).
  { intros p Hp E. split; [|split].
    - apply py_str_fits. unfold fits. rewrite <- E. lia.
    - apply py_str_raises. unfold fits. rewrite <- E. lia.
    - apply create_timestamp_link_raises. unfold fits. rewrite <- E. lia. }
  exact (F (10 ^ 4300) P eq_refl).
Qed.

(** * Instances of the properties that have a premise *)

Lemma parse_timestamp_converts_fields_witness :
  (leftmost_timestamp (lit "lol at 2:15") [lit "2"; lit "15"] /\
   parse_timestamp (lit "lol at 2:15")
   = Return (Some (digits_value (lit "2") * 60 + digits_value (lit "15")))) /\
  (leftmost_timestamp (lit "great scene at 1:05:30 and 2:15")
     [lit "1"; lit "05"; lit "30"] /\
   parse_timestamp (lit "great scene at 1:05:30 and 2:15")
   = Return (Some (digits_value (lit "1") * 3600 + digits_value (lit "05") * 60
                   + digits_value (lit "30")))).
Proof.
  split; split.
  - exact (leftmost_timestamp_of_search (lit "lol at 2:15") (lit "2:15") eq_refl).
  - exact (proj1 parse_timestamp_converts_fields _ _ _
             (leftmost_timestamp_of_search (lit "lol at 2:15") (lit "2:15")
                eq_refl)).
  - exact (leftmost_timestamp_of_search
             (lit "great scene at 1:05:30 and 2:15") (lit "1:05:30") eq_refl).
  - exact (proj1 (proj2 parse_timestamp_converts_fields) _ _ _ _
             (leftmost_timestamp_of_search
                (lit "great scene at 1:05:30 and 2:15") (lit "1:05:30")
                eq_refl)).
Defined.

Lemma parse_timestamp_never_raises_witness :
  no_timestamp (lit "no timestamp here") /\
  parse_timestamp (lit "no timestamp here") = Return None.
Proof.
  split.
  - exact (proj1 (re_search_no_timestamp (lit "no timestamp here")) eq_refl).
  - exact (proj1 (proj2 (parse_timestamp_never_raises (lit "no timestamp here")))
             (proj1 (re_search_no_timestamp (lit "no timestamp here")) eq_refl)).
Defined.

Lemma parse_timestamp_no_range_validation_witness :
  (leftmost_timestamp (lit "see 90:99 again") [lit "90"; lit "99"] /\
   (60 <= digits_value (lit "90") \/ 60 <= digits_value (lit "99")) /\
   parse_timestamp (lit "see 90:99 again")
   = Return (Some (digits_value (lit "90") * 60 + digits_value (lit "99")))) /\
  (leftmost_timestamp (lit "1:75:80") [lit "1"; lit "75"; lit "80"] /\
   (60 <= digits_value (lit "75") \/ 60 <= digits_value (lit "80")) /\
   parse_timestamp (lit "1:75:80")
   = Return (Some (digits_value (lit "1") * 3600 + digits_value (lit "75") * 60
                   + digits_value (lit "80")))).
Proof.
  assert (H90 : 60 <= digits_value (lit "90")) by (vm_compute; discriminate).
  assert (H75 : 60 <= digits_value (lit "75")) by (vm_compute; discriminate).
  split; (split; [|split]).
  - exact (leftmost_timestamp_of_search (lit "see 90:99 again") (lit "90:99")
             eq_refl).
  - left. exact H90.
  - exact (proj1 parse_timestamp_no_range_validation _ _ _
             (leftmost_timestamp_of_search (lit "see 90:99 again")
                (lit "90:99") eq_refl) (or_introl H90)).
  - exact (leftmost_timestamp_of_search (lit "1:75:80") (lit "1:75:80") eq_refl).
  - left. exact H75.
  - exact (proj1 (proj2 parse_timestamp_no_range_validation) _ _ _ _
             (leftmost_timestamp_of_search (lit "1:75:80") (lit "1:75:80")
                eq_refl) (or_introl H75)).
Defined.

Lemma arrival_order_is_irrelevant_witness :
  NoDup (map fst (notna chained_rows)) /\
  Permutation chained_rows
    [comment_at (Some 12) 1; comment_at (Some 0) 2;
     comment_at (Some 8) 3; comment_at (Some 4) 7] /\
  aggregate_in (SV := insertion_sort_values) das_py chained_rows
  = aggregate_in (SV := insertion_sort_values) das_py
      [comment_at (Some 12) 1; comment_at (Some 0) 2;
       comment_at (Some 8) 3; comment_at (Some 4) 7].
Proof.
  assert (N : NoDup (map fst (notna chained_rows))).
  { change (NoDup [0; 4; 8; 12]).
    repeat (constructor; [simpl; intuition discriminate|]). constructor. }
  assert (P : Permutation chained_rows
                [comment_at (Some 12) 1; comment_at (Some 0) 2;
                 comment_at (Some 8) 3; comment_at (Some 4) 7]).
  { unfold chained_rows.
    apply Permutation_sym.
    apply (Permutation_cons_app
             [comment_at (Some 0) 2; comment_at (Some 4) 7;
              comment_at (Some 8) 3] []).
    rewrite app_nil_r.
    apply perm_skip.
    apply perm_swap. }
  split; [exact N|]. split; [exact P|].
  exact (arrival_order_is_irrelevant insertion_sort_values
           insertion_sort_values das_py _ _ N P).
Defined.

Lemma label_parses_back_witness :
  (Z.abs (359999 / 86400) <= 999999999 /\
   seconds_to_timestamp 359999 = lit "4 days, 3:59:59" /\
   parse_timestamp (seconds_to_timestamp 359999) = Return (Some (359999 mod 86400))) /\
  (0 <= 3930 < 86400 /\
   parse_timestamp (seconds_to_timestamp 3930) = Return (Some 3930)).
Proof.
  assert (H1 : Z.abs (359999 / 86400) <= 999999999) by (vm_compute; discriminate).
  assert (H2 : 0 <= 3930 < 86400) by lia.
  split; [split; [exact H1|split; [reflexivity|]]|split; [exact H2|]].
  - exact (proj1 (label_parses_back 359999) H1).
  - exact (proj2 (label_parses_back 3930) H2).
Defined.

Lemma create_timestamp_link_replaces_witness :
  create_timestamp_link (lit "https://www.youtube.com/watch?v=abc&t=10s") 75
  = Return (lit "https://www.youtube.com/watch?v=abc&t=75s") /\
  create_timestamp_link (lit "https://www.youtube.com/watch?v=abc&t=75s") 20
  = create_timestamp_link (lit "https://www.youtube.com/watch?v=abc&t=10s") 20.
Proof.
  split; [reflexivity|].
  exact (create_timestamp_link_replaces
           (lit "https://www.youtube.com/watch?v=abc&t=10s")
           (lit "https://www.youtube.com/watch?v=abc&t=75s") 75 20 eq_refl).
Defined.

Lemma video_id_of_watch_url_witness :
  ~ In (Latin "&") (lit "dQw4w9WgXcQ") /\
  contains (lit "watch?v=") (lit "dQw4w9WgXcQ") = false /\
  create_timestamp_link (watch_url (lit "dQw4w9WgXcQ")) (-75)
  = Return (lit "https://www.youtube.com/watch?v=dQw4w9WgXcQ&t=-75s") /\
  video_id (lit "https://www.youtube.com/watch?v=dQw4w9WgXcQ&t=-75s")
  = Some (lit "dQw4w9WgXcQ").
Proof.
  assert (N : ~ In (Latin "&") (lit "dQw4w9WgXcQ"))
    by (cbn; intuition discriminate).
  split; [exact N|]. split; [reflexivity|]. split; [reflexivity|].
  exact (proj2 (proj2 (proj2 (video_id_of_watch_url (lit "dQw4w9WgXcQ") (-75)
                                N eq_refl))) _ eq_refl).
Defined.

Lemma parse_duration_reads_components_witness :
  readable (Some 1) /\ readable None /\ readable (Some 30) /\
  parse_duration (lit "PT" ++ component (Some 1) (Latin "H") ++ component None (Latin "M")
                  ++ component (Some 30) (Latin "S"))
  = Return (amount (Some 1) * 3600 + amount None * 60 + amount (Some 30)).
Proof.
  assert (H1 : readable (Some 1)) by (split; [discriminate | reflexivity]).
  assert (H2 : readable None) by (split; [discriminate | reflexivity]).
  assert (H3 : readable (Some 30)) by (split; [discriminate | reflexivity]).
  split; [exact H1|]. split; [exact H2|]. split; [exact H3|].
  exact (parse_duration_reads_components (Some 1) None (Some 30) H1 H2 H3).
Defined.
